(** * extract_all_images.py: the extraction driver and the parallel coordinator

    A shallow embedding of [_workerInitializer], [_extractImage] and [_main]
    of [extract_all_images.py].  The Python interpreter services the script
    relies on (exceptions, [pathlib], the file tree, [mmap], [logging],
    [multiprocessing.Pool]) are given small executable models first; the
    modules of the package the script imports are an interface ([Imports]). *)

From Stdlib Require Import ZArith NArith List String Ascii Bool Lia.
From stdpp Require Import gmap strings list.

Local Open Scope string_scope.
Local Open Scope list_scope.

(** ** Python exceptions and results *)

Inductive ExcClass :=
  | IndexError | KeyError | TypeError | ValueError | OverflowError
  | FileNotFoundError | FileExistsError | NotADirectoryError | IsADirectoryError
  | UnicodeDecodeError | UnboundLocalError | RecursionError
  | OtherException (name : string)
  | KeyboardInterrupt | SystemExit
  | OtherBaseException (name : string).

(** [isinstance(e, Exception)]: what an [except Exception] clause catches. *)
Definition isinstance_Exception (c : ExcClass) : bool :=
  match c with
  | KeyboardInterrupt | SystemExit | OtherBaseException _ => false
  | _ => true
  end.

Record PyExc := mkExc { exc_class : ExcClass; exc_msg : string }.

Inductive Result (A : Type) :=
  | Ok (a : A)
  | Raise (e : PyExc).
Arguments Ok {A} a.
Arguments Raise {A} e.

Definition is_Ok {A} (r : Result A) : bool :=
  match r with Ok _ => true | Raise _ => false end.

(** State-and-exception monad: a computation over a state [S] either returns
    a value or raises, and leaves a state behind in both cases. *)
Definition M (S A : Type) : Type := S -> Result A * S.

Definition ret {S A} (a : A) : M S A := fun s => (Ok a, s).
Definition bind {S A B} (m : M S A) (k : A -> M S B) : M S B :=
  fun s => match m s with
           | (Ok a, s') => k a s'
           | (Raise e, s') => (Raise e, s')
           end.
Definition lift {S A} (r : Result A) : M S A := fun s => (r, s).
Definition modify {S} (f : S -> S) : M S unit := fun s => (Ok tt, f s).
Definition get {S} : M S S := fun s => (Ok s, s).

(** [try: body except Exception as e: handler(e)]; an exception that is not
    an instance of [Exception] passes through. *)
Definition try_except_Exception {S A} (body : M S A) (handler : PyExc -> M S A) : M S A :=
  fun s => match body s with
           | (Ok a, s') => (Ok a, s')
           | (Raise e, s') =>
               if isinstance_Exception (exc_class e) then handler e s'
               else (Raise e, s')
           end.

Declare Scope py_scope.
Delimit Scope py_scope with py.
Notation "x <- m ;; k" := (bind m (fun x => k))
  (at level 100, m at next level, right associativity) : py_scope.
Notation "m ;;; k" := (bind m (fun _ => k))
  (at level 100, right associativity) : py_scope.
Local Open Scope py_scope.

(** ** Strings *)

(** [s[0]]: the first character, [IndexError] on the empty string. *)
Definition str_getitem0 (s : string) : Result ascii :=
  match s with
  | EmptyString => Raise (mkExc IndexError "string index out of range")
  | String c _ => Ok c
  end.

(** [s[1:]] *)
Definition str_slice_from1 (s : string) : string :=
  match s with
  | EmptyString => EmptyString
  | String _ s' => s'
  end.

(** [s[0:-1]] *)
Fixpoint str_drop_last (s : string) : string :=
  match s with
  | EmptyString => EmptyString
  | String c EmptyString => EmptyString
  | String c s' => String c (str_drop_last s')
  end.

Definition is_slash (c : ascii) : bool := Ascii.eqb c "/".

(** [s.split("/")]: never empty; the pieces between the separators. *)
Fixpoint split_sep (s : string) : list string :=
  match s with
  | EmptyString => [EmptyString]
  | String c s' =>
      if is_slash c then EmptyString :: split_sep s'
      else match split_sep s' with
           | x :: xs => String c x :: xs
           | [] => [String c EmptyString]
           end
  end.

(** [s.split("/")[-1]] *)
Definition split_last (s : string) : string := List.last (split_sep s) EmptyString.

(** [s.lstrip("/")] *)
Fixpoint lstrip_sep (s : string) : string :=
  match s with
  | EmptyString => EmptyString
  | String c s' => if is_slash c then lstrip_sep s' else s
  end.

(** ** pathlib (PurePosixPath)

    A path is its root (empty, one slash or two slashes) and its components;
    unlike [PurePath.parts] the component list leaves the root out. *)
Module pathlib.

Record PurePath := mkPath { root : string; parts : list string }.

#[export] Instance PurePath_eq_dec : EqDecision PurePath.
Proof. solve_decision. Defined.

#[export] Instance PurePath_countable : Countable PurePath.
Proof.
  refine (inj_countable' (fun p => (root p, parts p))
                         (fun '(r, ps) => mkPath r ps) _).
  intros []; reflexivity.
Defined.

(** [_PosixFlavour.splitroot]: exactly two leading slashes are kept as a
    root of their own, any other number collapses to one. *)
Definition splitroot (part : string) : string * string :=
  match part with
  | String c _ =>
      if is_slash c then
        let stripped := lstrip_sep part in
        if Nat.eqb (String.length part - String.length stripped) 2
        then ("//", stripped) else ("/", stripped)
      else ("", part)
  | EmptyString => ("", part)
  end.

Definition keep_component (x : string) : bool :=
  negb (String.eqb x "") && negb (String.eqb x ".").

(** [_Flavour.parse_parts] on one string: empty components and [.] are
    dropped. *)
Definition parse_parts (part : string) : PurePath :=
  let '(r, rel) := splitroot part in
  mkPath r (List.filter keep_component (split_sep rel)).

(** [pathlib.Path(s)] *)
Definition Path (s : string) : PurePath := parse_parts s.

(** [p / s] ([join_parsed_parts] without drives): a rooted right operand
    replaces the left one. *)
Definition truediv (p : PurePath) (s : string) : PurePath :=
  let q := parse_parts s in
  if String.eqb (root q) "" then mkPath (root p) (parts p ++ parts q)
  else q.

(** [p.parent]: a path without components is its own parent. *)
Definition parent (p : PurePath) : PurePath :=
  mkPath (root p) (List.removelast (parts p)).


End pathlib.
Export pathlib.

Notation "p // s" := (truediv p s) (at level 40, left associativity) : py_scope.

Definition bytes := list Byte.byte.

(** [str(p)] of a path, used for the worker's logger name. *)
Definition str_path (p : PurePath) : string :=
  match parts p with
  | [] => if String.eqb (root p) "" then "." else root p
  | ps => root p ++ String.concat "/" ps
  end.

(** [l[i]] with Python's negative indices. *)
Definition list_getitem {A} (l : list A) (i : Z) : Result A :=
  let n := Z.of_nat (List.length l) in
  let j := if (i <? 0)%Z then (i + n)%Z else i in
  if (j <? 0)%Z then Raise (mkExc IndexError "list index out of range")
  else match List.nth_error l (Z.to_nat j) with
       | Some a => Ok a
       | None => Raise (mkExc IndexError "list index out of range")
       end.

(** [d[k]] on a dict. *)
Definition dict_getitem {A} (d : gmap string A) (k : string) : Result A :=
  match d !! k with
  | Some a => Ok a
  | None => Raise (mkExc KeyError k)
  end.

(** ** The file tree

    Paths name directories or regular files.  The path without components
    (the working directory, or the root) always is a directory.  The
    operations fail for the structural reasons of the tree only (a missing
    parent, a name already taken); permissions and device errors are not
    modelled. *)
Module os.

Inductive Node :=
  | Dir
  | File (content : bytes).

Abbreviation FS := (gmap PurePath Node).

Definition stat (fs : FS) (p : PurePath) : option Node :=
  match parts p with
  | [] => Some Dir
  | _ => fs !! p
  end.

Definition is_dir (fs : FS) (p : PurePath) : bool :=
  match stat fs p with
  | Some Dir => true
  | _ => false
  end.

(** Every entry lives in a directory. *)
Definition tree_ok (fs : FS) : Prop :=
  forall p n, fs !! p = Some n -> stat fs (parent p) = Some Dir.

(** [os.mkdir(p)] *)
Definition mkdir (p : PurePath) (fs : FS) : Result FS :=
  match parts p with
  | [] => Raise (mkExc FileExistsError (str_path p))
  | _ =>
      match stat fs (parent p) with
      | None => Raise (mkExc FileNotFoundError (str_path p))
      | Some (File _) => Raise (mkExc NotADirectoryError (str_path p))
      | Some Dir =>
          match fs !! p with
          | Some _ => Raise (mkExc FileExistsError (str_path p))
          | None => Ok (<[p := Dir]> fs)
          end
      end
  end.

(** [Path.mkdir(parents=False, exist_ok=True)]: an [OSError] other than
    [FileNotFoundError] is dropped when the path is a directory. *)
Definition Path_mkdir_here (p : PurePath) (fs : FS) : Result FS :=
  match mkdir p fs with
  | Ok fs' => Ok fs'
  | Raise e =>
      match exc_class e with
      | FileNotFoundError => Raise e
      | _ => if is_dir fs p then Ok fs else Raise e
      end
  end.

(** [Path.mkdir(parents=True, exist_ok=True)]: on [FileNotFoundError] the
    parent is made first (recursively), then the path itself.  The
    recursion is on the parent, so a fuel of the number of components is
    never used up. *)
Fixpoint Path_mkdir_fuel (fuel : nat) (p : PurePath) (fs : FS) : Result FS :=
  match mkdir p fs with
  | Ok fs' => Ok fs'
  | Raise e =>
      match exc_class e with
      | FileNotFoundError =>
          if decide (parent p = p) then Raise e
          else match fuel with
               | O => Raise (mkExc RecursionError "")
               | S fuel' =>
                   match Path_mkdir_fuel fuel' (parent p) fs with
                   | Ok fs1 => Path_mkdir_here p fs1
                   | Raise e1 => Raise e1
                   end
               end
      | _ => if is_dir fs p then Ok fs else Raise e
      end
  end.

Definition Path_mkdir (p : PurePath) (fs : FS) : Result FS :=
  Path_mkdir_fuel (List.length (parts p)) p fs.

(** [open(p, "rb")]: the file's bytes. *)
Definition open_rb (p : PurePath) (fs : FS) : Result bytes :=
  match stat fs p with
  | Some (File c) => Ok c
  | Some Dir => Raise (mkExc IsADirectoryError (str_path p))
  | None => Raise (mkExc FileNotFoundError (str_path p))
  end.

(** [open(p, "wb+")]: creates the file, or truncates it. *)
Definition open_wb (p : PurePath) (fs : FS) : Result FS :=
  match parts p with
  | [] => Raise (mkExc IsADirectoryError (str_path p))
  | _ =>
      match stat fs (parent p) with
      | None => Raise (mkExc FileNotFoundError (str_path p))
      | Some (File _) => Raise (mkExc NotADirectoryError (str_path p))
      | Some Dir =>
          match fs !! p with
          | Some Dir => Raise (mkExc IsADirectoryError (str_path p))
          | _ => Ok (<[p := File []]> fs)
          end
      end
  end.

(** [f.write(data)] on the file opened at [p]: appends at the position. *)
Definition write (p : PurePath) (data : bytes) (fs : FS) : Result FS :=
  match fs !! p with
  | Some (File c) => Ok (<[p := File (c ++ data)]> fs)
  | _ => Raise (mkExc ValueError "I/O operation on closed file")
  end.

End os.

(** ** mmap *)
Module mmap.

Inductive Access := ACCESS_READ | ACCESS_WRITE | ACCESS_COPY.

(** A mapping of the file at [path]: the bytes the process sees and the
    read position. *)
Record t := mk { path : PurePath; access : Access; data : bytes; pos : nat }.

(** [mmap.mmap(f.fileno(), 0, access=a)] maps the whole file. *)
Definition mmap (p : PurePath) (content : bytes) (a : Access) : Result t :=
  match content with
  | [] => Raise (mkExc ValueError "cannot mmap an empty file")
  | _ => Ok (mk p a content 0)
  end.

(** [m.seek(n)] *)
Definition seek (m : t) (n : nat) : t := mk (path m) (access m) (data m) n.

(** [m.read(n)]: at most [n] bytes from the position on; a count that
    does not fit a signed 64-bit size is refused. *)
Definition read (m : t) (n : N) : Result (bytes * t) :=
  if (2 ^ 63 <=? n)%N then
    Raise (mkExc OverflowError "Python int too large to convert to C ssize_t")
  else
    let out := List.firstn (N.to_nat n) (List.skipn (pos m) (data m)) in
    Ok (out, mk (path m) (access m) (data m) (pos m + List.length out)).




End mmap.

(** ** logging *)
Module logging.

Definition CRITICAL : Z := 50.
Definition ERROR : Z := 40.
Definition WARNING : Z := 30.
Definition INFO : Z := 20.
Definition DEBUG : Z := 10.
Definition NOTSET : Z := 0.

Record LogRecord := mkRecord { levelno : Z; msg : string; exc_info : option PyExc }.

Record Logger := mkLogger { name : string; level : Z }.

(** A logger whose level is [NOTSET] takes the root logger's level, which
    is [WARNING] unless configured. *)
Definition getEffectiveLevel (lg : Logger) : Z :=
  if (level lg =? NOTSET)%Z then WARNING else level lg.

Definition isEnabledFor (lg : Logger) (lvl : Z) : bool :=
  (getEffectiveLevel lg <=? lvl)%Z.

(** [logger.exception(e)]: an [ERROR] record with the exception attached. *)
Definition exception_record (e : PyExc) : LogRecord :=
  mkRecord ERROR (exc_msg e) (Some e).

End logging.
Export logging.

(** ** The contexts the driver builds and the modules it imports *)

(** Modelled from the spec: an [ImageEntry{address, pathOffset}] of the
    cache's image directory; the class is declared outside this file, the
    field names are those the driver reads ([image.address],
    [image.pathFileOffset]). *)
Record dyld_cache_image_info := mkImage { address : N; pathFileOffset : N }.

(** Modelled from the spec: [DyldContext] (the spec's CacheModel) is declared
    outside this file; kept are the mapping it was built on and the image
    directory, which the driver reads as [dyldCtx.images]. *)
Record DyldContext := mkDyldContext {
  dyld_file : mmap.t;
  images : list dyld_cache_image_info
}.

(** Modelled from the spec: a [Segment]'s file offset and file size, read by
    the driver as [seg.fileoff] and [seg.filesize] (unsigned 64-bit fields;
    their sum is a Python integer and does not wrap). *)
Record segment_command_64 := mkSeg { fileoff : N; filesize : N }.

Record SegmentContext := mkSegmentContext { seg : segment_command_64 }.

(** Modelled from the spec: [MachOContext] (the spec's ImageModel) is
    declared outside this file; kept are the buffer ([file]), the offset of
    the image in it and the segments by name. *)
Record MachOContext := mkMachOContext {
  file : mmap.t;
  fileOffset : option N;
  segments : gmap string SegmentContext
}.

(** [_DummyProgressBar]: [update] accepts anything and does nothing. *)
Record _DummyProgressBar := mk_DummyProgressBar { }.

(** Modelled from the spec: [ExtractionContext] is declared outside this
    file; its four constructor arguments, as the driver passes them. *)
Record ExtractionContext := mkExtractionContext {
  dyldCtx : DyldContext;
  machoCtx : MachOContext;
  statusBar : _DummyProgressBar;
  logger : Logger
}.

(** What one converter call does, as far as the driver can tell: the log
    calls it makes on the logger the worker handed over (whose level it
    leaves alone), in order, and then either the context as it left it (the
    converters mutate it in place, and [optimizeOffsets] installs a new
    [machoCtx]) or the exception it raised. *)
Record StepResult := mkStepResult {
  sr_log : list LogRecord;
  sr_out : Result ExtractionContext
}.

(** The imported names the driver calls.  None of them is defined in
    [extract_all_images.py]; every statement below holds for all of them. *)
Class Imports := {
  (** [DyldContext(file)]: parsing the cache header and image directory *)
  DyldContext_parse : bytes -> Result (list dyld_cache_image_info);
  (** [dyldCtx.convertAddr(addr)]; [None] when no mapping holds the address *)
  convertAddr : DyldContext -> N -> Result (option N);
  (** [dyldCtx.readString(offset)]: the bytes up to and with the terminator *)
  readString : DyldContext -> N -> Result string;
  (** [MachOContext(file, offset)]: parsing the header and load commands *)
  MachOContext_parse : bytes -> option N -> Result (gmap string SegmentContext);
  (** the five converters *)
  processSlideInfo : ExtractionContext -> StepResult;
  optimizeLinkedit : ExtractionContext -> StepResult;
  fixStubs : ExtractionContext -> StepResult;
  fixObjC : ExtractionContext -> StepResult;
  optimizeOffsets : ExtractionContext -> StepResult;
  (** [logging.Formatter.format] with the driver's format string; it reads
      the clock and the call site *)
  format : LogRecord -> string;
  (** [bytes.decode("utf-8")] *)
  decode_utf8 : string -> Result string;
  (** [os.cpu_count()], the default size of a [multiprocessing.Pool] *)
  cpu_count : nat
}.

Definition new_DyldContext `{Imports} (f : mmap.t) : Result DyldContext :=
  match DyldContext_parse (mmap.data f) with
  | Ok imgs => Ok (mkDyldContext f imgs)
  | Raise e => Raise e
  end.

Definition new_MachOContext `{Imports} (f : mmap.t) (offset : option N) : Result MachOContext :=
  match MachOContext_parse (mmap.data f) offset with
  | Ok segs => Ok (mkMachOContext f offset segs)
  | Raise e => Raise e
  end.

(** ** The worker: [_extractImage] *)

Inductive Converter :=
  | slide_info | linkedit_optimizer | stub_fixer | objc_fixer | macho_offset.

(** What a worker does that can be seen from outside, in order. *)
Inductive Event :=
  | EvCall (c : Converter)
  | EvMkdir (p : PurePath)
  | EvOpen (p : PurePath)
  | EvWrite (p : PurePath) (data : bytes).

(** The state of a running worker: the file tree, the text in its
    [loggingStream], and the events so far. *)
Record WState := mkWState {
  w_fs : os.FS;
  w_stream : string;
  w_trace : list Event
}.

Definition event (ev : Event) : M WState unit :=
  modify (fun s => mkWState (w_fs s) (w_stream s) (w_trace s ++ [ev])).

(** A file-tree operation run on the worker's state. *)
Definition on_fs (op : os.FS -> Result os.FS) : M WState unit :=
  fun s => match op (w_fs s) with
           | Ok fs' => (Ok tt, mkWState fs' (w_stream s) (w_trace s))
           | Raise e => (Raise e, s)
           end.

(** [StreamHandler.emit]: the formatted record and the terminator. *)
Definition emit `{Imports} (r : LogRecord) (stream : string) : string :=
  stream ++ format r ++ String "010" "".

(** A log call on the worker's logger: records under the logger's level are
    dropped. *)
Definition handle `{Imports} (lg : Logger) (stream : string) (r : LogRecord) : string :=
  if isEnabledFor lg (levelno r) then emit r stream else stream.

Definition log `{Imports} (lg : Logger) (r : LogRecord) : M WState unit :=
  modify (fun s => mkWState (w_fs s) (handle lg (w_stream s) r) (w_trace s)).

Definition log_all `{Imports} (lg : Logger) (rs : list LogRecord) : M WState unit :=
  modify (fun s => mkWState (w_fs s) (List.fold_left (handle lg) rs (w_stream s)) (w_trace s)).

(** One converter call: its log calls reach the stream, then it returns or
    raises. *)
Definition call `{Imports} (lg : Logger) (c : Converter)
    (f : ExtractionContext -> StepResult) (ctx : ExtractionContext)
    : M WState ExtractionContext :=
  event (EvCall c) ;;;
  log_all lg (sr_log (f ctx)) ;;;
  lift (sr_out (f ctx)).

(** The block under [# write the file]. *)
Definition write_file (outputPath : PurePath) (extractionCtx : ExtractionContext)
    : M WState unit :=
  event (EvMkdir (parent outputPath)) ;;;
  on_fs (os.Path_mkdir (parent outputPath)) ;;;
  event (EvOpen outputPath) ;;;
  on_fs (os.open_wb outputPath) ;;;
  let newMachoCtx := machoCtx extractionCtx in
  (* get the size of the new file *)
  linkeditSeg <- lift (dict_getitem (segments newMachoCtx) "__LINKEDIT") ;;
  let fileSize := (fileoff (seg linkeditSeg) + filesize (seg linkeditSeg))%N in
  rd <- lift (mmap.read (mmap.seek (file newMachoCtx) 0) fileSize) ;;
  event (EvWrite outputPath (fst rd)) ;;;
  on_fs (os.write outputPath (fst rd)).

(** The body of the [try] block. *)
Definition try_body `{Imports} (lg : Logger) (outputPath : PurePath)
    (extractionCtx : ExtractionContext) : M WState unit :=
  ctx1 <- call lg slide_info processSlideInfo extractionCtx ;;
  ctx2 <- call lg linkedit_optimizer optimizeLinkedit ctx1 ;;
  ctx3 <- call lg stub_fixer fixStubs ctx2 ;;
  ctx4 <- call lg objc_fixer fixObjC ctx3 ;;
  ctx5 <- call lg macho_offset optimizeOffsets ctx4 ;;
  write_file outputPath ctx5.

(** [imagePath] made relative: one leading slash is dropped. *)
Definition relative_imagePath (imagePath : string) : Result string :=
  match str_getitem0 imagePath with
  | Ok c => Ok (if is_slash c then str_slice_from1 imagePath else imagePath)
  | Raise e => Raise e
  end.

(** [_extractImage] up to the [try] statement: the output path and the
    extraction context. *)
Definition extract_setup `{Imports}
    (dyldPath outputDir : PurePath) (imageIndex : Z) (imagePath : string)
    (loggingLevel : Z) : M WState (PurePath * ExtractionContext) :=
  (* change imagePath to a relative path *)
  imagePath <- lift (relative_imagePath imagePath) ;;
  let outputPath := outputDir // imagePath in
  (* setup logging *)
  let logger := mkLogger ("Worker: " ++ str_path outputPath) loggingLevel in
  modify (fun s => mkWState (w_fs s) "" (w_trace s)) ;;;
  (* Process the image *)
  f <- (fun s => (os.open_rb dyldPath (w_fs s), s)) ;;
  dyldFile <- lift (mmap.mmap dyldPath f mmap.ACCESS_READ) ;;
  dyldCtx <- lift (new_DyldContext dyldFile) ;;
  image <- lift (list_getitem (images dyldCtx) imageIndex) ;;
  imageOffset <- lift (convertAddr dyldCtx (address image)) ;;
  machoFile <- lift (mmap.mmap dyldPath f mmap.ACCESS_COPY) ;;
  machoCtx <- lift (new_MachOContext machoFile imageOffset) ;;
  ret (outputPath, mkExtractionContext dyldCtx machoCtx mk_DummyProgressBar logger).

Definition _extractImage `{Imports}
    (dyldPath outputDir : PurePath) (imageIndex : Z) (imagePath : string)
    (loggingLevel : Z) : M WState string :=
  setup <- extract_setup dyldPath outputDir imageIndex imagePath loggingLevel ;;
  let '(outputPath, extractionCtx) := setup in
  try_except_Exception
    (try_body (logger extractionCtx) outputPath extractionCtx)
    (fun e => log (logger extractionCtx) (exception_record e)) ;;;
  s <- get ;;
  ret (w_stream s).

(** A worker started on the file tree [fs]. *)
Definition run_extractImage `{Imports}
    (dyldPath outputDir : PurePath) (imageIndex : Z) (imagePath : string)
    (loggingLevel : Z) (fs : os.FS) : Result string * WState :=
  _extractImage dyldPath outputDir imageIndex imagePath loggingLevel
                (mkWState fs "" []).

(** ** Processes, signals and the pool *)
Module signal.

Inductive Signal := SIGINT | SIGTERM | SIGHUP | SIGPIPE.

#[export] Instance Signal_eq_dec : EqDecision Signal.
Proof. solve_decision. Defined.

(** [default_int_handler] is the handler Python installs for [SIGINT]; it
    raises [KeyboardInterrupt]. *)
Inductive Handler := SIG_DFL | SIG_IGN | default_int_handler.

(** A process, as far as signals go: the handler of every signal. *)
Record Process := mkProcess { handler_of : Signal -> Handler }.

(** [signal.signal(sig, h)] in process [p]. *)
Definition signal (sig : Signal) (h : Handler) (p : Process) : Process :=
  mkProcess (fun s => if decide (s = sig) then h else handler_of p s).

(** A freshly started interpreter. *)
Definition python_process : Process :=
  mkProcess (fun s => match s with
                      | SIGINT => default_int_handler
                      | SIGPIPE => SIG_IGN
                      | _ => SIG_DFL
                      end).

End signal.
Export signal.

(** Ignore KeyboardInterrupt in workers so that the main process can receive
    it and stop everything. *)
Definition _workerInitializer (p : Process) : Process :=
  signal SIGINT SIG_IGN p.

(** [multiprocessing.Pool(processes, initializer)]: the workers are children
    of the creating process and run the initializer first. *)
Record Pool := mkPool { workers : list Process }.

Definition new_Pool (parent : Process) (processes : nat)
    (initializer : option (Process -> Process)) : Pool :=
  mkPool (List.repeat (match initializer with
                       | Some init => init parent
                       | None => parent
                       end) processes).

(** What the coordinator cannot decide: for the job submitted as number [i],
    the poll of the coordinator from which [job.ready()] answers true, and
    the file tree its worker finds. *)
Record Schedule := mkSchedule {
  done_at : nat -> nat;
  fs_of : nat -> os.FS
}.

(** [multiprocessing.pool.AsyncResult] *)
Record AsyncResult := mkAsyncResult {
  ar_number : nat;
  ar_done_at : nat;
  ar_value : Result string
}.

(** ** The coordinator: [_main] *)

Record _DyldExtractorArgs := mkArgs {
  dyld_path : PurePath;
  output : option PurePath;
  verbosity : Z
}.

Inductive CEvent :=
  | CRead (i : nat)
  | CPool (pool : Pool)
  | CSubmit (dyldPath outputDir : PurePath) (i : Z) (imagePath : string) (level : Z)
  | CComplete (imagePath : string) (job : nat) (clock : nat).

(** The coordinator's state: its file tree, the number of polls so far, the
    arguments of the [print] calls so far (each is written out followed by a
    newline), [jobOutputs], [jobsComplete], the values shown by the progress
    bar, and the events so far. *)
Record CState := mkCState {
  c_fs : os.FS;
  c_clock : nat;
  c_stdout : list string;
  c_jobOutputs : list string;
  c_jobsComplete : nat;
  c_progress : list nat;
  c_trace : list CEvent
}.

Definition c_event (ev : CEvent) : M CState unit :=
  modify (fun s => mkCState (c_fs s) (c_clock s) (c_stdout s) (c_jobOutputs s)
                            (c_jobsComplete s) (c_progress s) (c_trace s ++ [ev])).

Definition nl : string := String "010" "".

(** [print(x)] *)
Definition print (x : string) : M CState unit :=
  modify (fun s => mkCState (c_fs s) (c_clock s) (c_stdout s ++ [x]) (c_jobOutputs s)
                            (c_jobsComplete s) (c_progress s) (c_trace s)).

Definition progressBar_update (n : nat) : M CState unit :=
  modify (fun s => mkCState (c_fs s) (c_clock s) (c_stdout s) (c_jobOutputs s)
                            (c_jobsComplete s) (c_progress s ++ [n]) (c_trace s)).

Definition c_on_fs (op : os.FS -> Result os.FS) : M CState unit :=
  fun s => match op (c_fs s) with
           | Ok fs' => (Ok tt, mkCState fs' (c_clock s) (c_stdout s) (c_jobOutputs s)
                                        (c_jobsComplete s) (c_progress s) (c_trace s))
           | Raise e => (Raise e, s)
           end.

(** [job.ready()]: one poll. *)
Definition ready (job : AsyncResult) : M CState bool :=
  fun s => (Ok (Nat.leb (ar_done_at job) (c_clock s)),
            mkCState (c_fs s) (S (c_clock s)) (c_stdout s) (c_jobOutputs s)
                     (c_jobsComplete s) (c_progress s) (c_trace s)).

(** [job.get()] on a ready job: the worker's return value, or the exception
    the worker raised, raised again here. *)
Definition AsyncResult_get (job : AsyncResult) : M CState string :=
  lift (ar_value job).

(** [pool.apply_async(_extractImage, extractionArgs)] for job number [i]. *)
Definition apply_async `{Imports} (sch : Schedule) (i : nat)
    (dyldPath outputDir : PurePath) (imagePath : string) (loggingLevel : Z)
    : AsyncResult :=
  mkAsyncResult i (done_at sch i)
    (fst (run_extractImage dyldPath outputDir (Z.of_nat i) imagePath loggingLevel
                           (fs_of sch i))).

(** The summary block of one image. *)
Definition summary_of (imageName jobOutput : string) : string :=
  "----- " ++ imageName ++ " -----" ++ nl ++ jobOutput ++ "--------------------" ++ nl.

(** The body of [if job.ready():], after [jobs.pop(i)].  The event notes the
    job and the number of polls made so far. *)
Definition complete_job (imagePath : string) (job : AsyncResult) : M CState unit :=
  s0 <- get ;;
  c_event (CComplete imagePath (ar_number job) (c_clock s0)) ;;;
  let imageName := split_last imagePath in
  print ("Processed: " ++ imageName) ;;;
  jobOutput <- AsyncResult_get job ;;
  (if String.eqb jobOutput "" then ret tt
   else
     let summary := summary_of imageName jobOutput in
     modify (fun s => mkCState (c_fs s) (c_clock s) (c_stdout s)
                               (c_jobOutputs s ++ [summary])
                               (c_jobsComplete s) (c_progress s) (c_trace s)) ;;;
     print summary) ;;;
  modify (fun s => mkCState (c_fs s) (c_clock s) (c_stdout s) (c_jobOutputs s)
                            (S (c_jobsComplete s)) (c_progress s) (c_trace s)) ;;;
  s <- get ;;
  progressBar_update (c_jobsComplete s).

(** One pass of [for i in reversed(range(len(jobs)))].  The list holds the
    jobs by index; the jobs at the higher indices are polled before the one at
    the head, and a ready job is popped.  The result is the list of the jobs
    left, in their order. *)
Fixpoint sweep (jobs : list (string * AsyncResult)) : M CState (list (string * AsyncResult)) :=
  match jobs with
  | [] => ret []
  | (imagePath, job) :: higher =>
      rest <- sweep higher ;;
      r <- ready job ;;
      if (r : bool) then complete_job imagePath job ;;; ret rest
      else ret ((imagePath, job) :: rest)
  end.

(** [while len(jobs): ...]; [None] when the fuel does not reach the end. *)
Fixpoint wait_all (fuel : nat) (jobs : list (string * AsyncResult))
    : CState -> option (Result unit * CState) :=
  fun s =>
    match jobs with
    | [] => Some (Ok tt, s)
    | _ :: _ =>
        match fuel with
        | O => None
        | S fuel' =>
            match sweep jobs s with
            | (Ok jobs', s') => wait_all fuel' jobs' s'
            | (Raise e, s') => Some (Raise e, s')
            end
        end
    end.

(** The chain [if args.verbosity == 0: ... elif ... == 3: ...]; for any other
    value [loggingLevel] stays unbound. *)
Definition loggingLevel_of (verbosity : Z) : option Z :=
  if (verbosity =? 0)%Z then Some 100%Z
  else if (verbosity =? 1)%Z then Some WARNING
  else if (verbosity =? 2)%Z then Some INFO
  else if (verbosity =? 3)%Z then Some DEBUG
  else None.

(** [outputDir] as [_main] chooses it. *)
Definition outputDir_of (args : _DyldExtractorArgs) : PurePath :=
  match output args with
  | None => Path "binaries"
  | Some o => o
  end.

(** [for image in dyldCtx.images: imagePaths.append(...)]; [i] counts the
    images read so far. *)
Fixpoint read_imagePaths `{Imports} (dyldCtx : DyldContext)
    (imgs : list dyld_cache_image_info) (i : nat) : M CState (list string) :=
  match imgs with
  | [] => ret []
  | image :: rest =>
      c_event (CRead i) ;;;
      raw <- lift (readString dyldCtx (pathFileOffset image)) ;;
      imagePath <- lift (decode_utf8 (str_drop_last raw)) ;;
      imagePaths <- read_imagePaths dyldCtx rest (S i) ;;
      ret (imagePath :: imagePaths)
  end.

(** [for i, imagePath in enumerate(imagePaths): jobs.append(...)] from index
    [i] on. *)
Fixpoint submit_jobs `{Imports} (sch : Schedule) (dyldPath outputDir : PurePath)
    (loggingLevel : option Z) (i : nat) (imagePaths : list string)
    : M CState (list (string * AsyncResult)) :=
  match imagePaths with
  | [] => ret []
  | imagePath :: rest =>
      level <- lift (match loggingLevel with
                     | Some l => Ok l
                     | None => Raise (mkExc UnboundLocalError "loggingLevel")
                     end) ;;
      (* The index should correspond with its index in the DSC *)
      c_event (CSubmit dyldPath outputDir (Z.of_nat i) imagePath level) ;;;
      jobs <- submit_jobs sch dyldPath outputDir loggingLevel (S i) rest ;;
      ret ((imagePath, apply_async sch i dyldPath outputDir imagePath level) :: jobs)
  end.

(** [_main] up to the [while] loop: the jobs submitted. *)
Definition main_submit `{Imports} (sch : Schedule) (proc : Process)
    (args : _DyldExtractorArgs) : M CState (list (string * AsyncResult)) :=
  (* Make the output dir *)
  let outputDir := outputDir_of args in
  c_on_fs (os.Path_mkdir outputDir) ;;;
  let loggingLevel := loggingLevel_of (verbosity args) in
  (* create a list of image paths *)
  f <- (fun s => (os.open_rb (dyld_path args) (c_fs s), s)) ;;
  dyldFile <- lift (mmap.mmap (dyld_path args) f mmap.ACCESS_READ) ;;
  dyldCtx <- lift (new_DyldContext dyldFile) ;;
  imagePaths <- read_imagePaths dyldCtx (images dyldCtx) 0 ;;
  c_event (CPool (new_Pool proc cpu_count (Some _workerInitializer))) ;;;
  (* Create a job for each image *)
  submit_jobs sch (dyld_path args) outputDir loggingLevel 0 imagePaths.

(** [_main] after the [while] loop. *)
Definition main_report : M CState unit :=
  s <- get ;;
  progressBar_update (c_jobsComplete s) ;;;
  (* reprint any job output *)
  print (nl ++ nl ++ "----- Summary -----") ;;;
  print (String.concat "" (c_jobOutputs s)) ;;;
  print ("-------------------" ++ nl).

(** [_main] in process [proc] on the file tree [fs]; [None] when the fuel
    does not reach the end of the [while] loop. *)
Definition _main `{Imports} (sch : Schedule) (fuel : nat) (proc : Process)
    (args : _DyldExtractorArgs) (fs : os.FS) : option (Result unit * CState) :=
  match main_submit sch proc args (mkCState fs 0 [] [] 0 [] []) with
  | (Raise e, s) => Some (Raise e, s)
  | (Ok jobs, s) =>
      match wait_all fuel jobs s with
      | None => None
      | Some (Raise e, s') => Some (Raise e, s')
      | Some (Ok _, s') => Some (main_report s')
      end
  end.

(** ** A small cache to run the definitions on

    One file [cache] of four bytes holding two images, [/usr/lib/libA.dylib]
    and [/usr/lib/libB.dylib]; converters that do nothing and leave a
    [__LINKEDIT] segment covering the first three bytes. *)
Module Sample.

Definition cache_bytes : bytes := [Byte.x01; Byte.x02; Byte.x03; Byte.x04].

Definition cache_path : PurePath := Path "cache".

Definition fs0 : os.FS := {[ cache_path := os.File cache_bytes ]}.

Definition linkedit : gmap string SegmentContext :=
  {[ "__LINKEDIT" := mkSegmentContext (mkSeg 1 2) ]}.

Definition nul : string := String "000" "".

Definition quiet (ctx : ExtractionContext) : StepResult := mkStepResult [] (Ok ctx).

(** A converter that logs a warning and raises. *)
Definition failing (ctx : ExtractionContext) : StepResult :=
  mkStepResult [mkRecord WARNING "odd slide info" None]
               (Raise (mkExc (OtherException "UnsupportedSlideFormat") "v9")).

(** A converter that leaves a [__LINKEDIT] segment ending past the buffer. *)
Definition overlong (ctx : ExtractionContext) : StepResult :=
  mkStepResult []
    (Ok (mkExtractionContext (dyldCtx ctx)
           (mkMachOContext (file (machoCtx ctx)) (fileOffset (machoCtx ctx))
                           {[ "__LINKEDIT" := mkSegmentContext (mkSeg 2 10) ]})
           (statusBar ctx) (logger ctx))).

Definition imports_with (first last : ExtractionContext -> StepResult) : Imports := {|
  DyldContext_parse := fun _ => Ok [mkImage 0 0; mkImage 16 1];
  convertAddr := fun _ a => Ok (Some a);
  readString := fun _ off =>
    Ok (if (off =? 0)%N then ("/usr/lib/libA.dylib" ++ nul)%string
        else ("/usr/lib/libB.dylib" ++ nul)%string);
  MachOContext_parse := fun _ _ => Ok linkedit;
  processSlideInfo := first;
  optimizeLinkedit := quiet;
  fixStubs := quiet;
  fixObjC := quiet;
  optimizeOffsets := last;
  format := fun r => msg r;
  decode_utf8 := fun s => Ok s;
  cpu_count := 2
|}.

Definition imports : Imports := imports_with quiet quiet.
Definition imports_failing : Imports := imports_with failing quiet.
Definition imports_overlong : Imports := imports_with quiet overlong.

(** Every job is ready at the first poll and finds the file tree [fs0]. *)
Definition at_once : Schedule := mkSchedule (fun _ => 0) (fun _ => fs0).

(** The second job is ready from the sixth poll on, the first at once. *)
Definition second_late : Schedule :=
  mkSchedule (fun i => match i with 1 => 5 | _ => 0 end) (fun _ => fs0).

Definition args0 : _DyldExtractorArgs := mkArgs cache_path None 1.

(** [_main] up to the loop on this cache, with every job ready at once. *)
Definition submitted (I : Imports) : Result (list (string * AsyncResult)) * CState :=
  @main_submit I at_once python_process args0 (mkCState fs0 0 [] [] 0 [] []).

Definition submitted_jobs (I : Imports) : list (string * AsyncResult) :=
  match fst (submitted I) with
  | Ok jobs => jobs
  | Raise _ => []
  end.

(** The output path and the extraction context of the worker for the first
    image, as [extract_setup] builds them. *)
Definition out_A : PurePath := Path "binaries/usr/lib/libA.dylib".

Definition ctx_A (loggingLevel : Z) : ExtractionContext :=
  mkExtractionContext
    (mkDyldContext (mmap.mk cache_path mmap.ACCESS_READ cache_bytes 0)
                   [mkImage 0 0; mkImage 16 1])
    (mkMachOContext (mmap.mk cache_path mmap.ACCESS_COPY cache_bytes 0) (Some 0%N) linkedit)
    mk_DummyProgressBar
    (mkLogger "Worker: binaries/usr/lib/libA.dylib" loggingLevel).

Definition e_fail : PyExc := mkExc (OtherException "UnsupportedSlideFormat") "v9".

End Sample.

(** ** Notions the statements use *)

(** The five converters, in the order [_extractImage] calls them. *)
Definition converters `{Imports} : list (Converter * (ExtractionContext -> StepResult)) :=
  [ (slide_info, processSlideInfo);
    (linkedit_optimizer, optimizeLinkedit);
    (stub_fixer, fixStubs);
    (objc_fixer, fixObjC);
    (macho_offset, optimizeOffsets) ].

(** A run of converters, each on the context the one before left: the
    converters called, their log calls, and the context at the end or the
    first exception. *)
Record Pipeline := mkPipeline {
  p_calls : list Converter;
  p_log : list LogRecord;
  p_out : Result ExtractionContext
}.

Fixpoint run_converters (cs : list (Converter * (ExtractionContext -> StepResult)))
    (ctx : ExtractionContext) : Pipeline :=
  match cs with
  | [] => mkPipeline [] [] (Ok ctx)
  | (c, f) :: rest =>
      match sr_out (f ctx) with
      | Raise e => mkPipeline [c] (sr_log (f ctx)) (Raise e)
      | Ok ctx' =>
          let r := run_converters rest ctx' in
          mkPipeline (c :: p_calls r) (sr_log (f ctx) ++ p_log r) (p_out r)
      end
  end.

(** The text the log calls [rs] leave in an empty stream. *)
Definition log_text `{Imports} (lg : Logger) (rs : list LogRecord) : string :=
  List.fold_left (handle lg) rs "".

(** The bytes [_extractImage] writes for the context [ctx] whose
    [__LINKEDIT] segment is [sc]. *)
Definition output_bytes (ctx : ExtractionContext) (sc : SegmentContext) : bytes :=
  List.firstn (N.to_nat (fileoff (seg sc) + filesize (seg sc)))
              (mmap.data (file (machoCtx ctx))).


(** How the block under [# write the file] can end, from the file tree [fs]:
    the result, the file tree left and the events. *)
Inductive WriteOutcome (outputPath : PurePath) (ctx : ExtractionContext) (fs : os.FS)
    : Result unit -> os.FS -> list Event -> Prop :=
  | wo_mkdir_fails e :
      os.Path_mkdir (parent outputPath) fs = Raise e ->
      WriteOutcome outputPath ctx fs (Raise e) fs [EvMkdir (parent outputPath)]
  | wo_open_fails fs1 e :
      os.Path_mkdir (parent outputPath) fs = Ok fs1 ->
      os.open_wb outputPath fs1 = Raise e ->
      WriteOutcome outputPath ctx fs (Raise e) fs1
                   [EvMkdir (parent outputPath); EvOpen outputPath]
  | wo_size_fails fs1 e :
      os.Path_mkdir (parent outputPath) fs = Ok fs1 ->
      os.open_wb outputPath fs1 = Ok (<[outputPath := os.File []]> fs1) ->
      (dict_getitem (segments (machoCtx ctx)) "__LINKEDIT" = Raise e \/
       exists sc, segments (machoCtx ctx) !! "__LINKEDIT" = Some sc /\
                  (2 ^ 63 <= fileoff (seg sc) + filesize (seg sc))%N /\
                  exc_class e = OverflowError) ->
      WriteOutcome outputPath ctx fs (Raise e) (<[outputPath := os.File []]> fs1)
                   [EvMkdir (parent outputPath); EvOpen outputPath]
  | wo_written fs1 sc :
      os.Path_mkdir (parent outputPath) fs = Ok fs1 ->
      os.open_wb outputPath fs1 = Ok (<[outputPath := os.File []]> fs1) ->
      segments (machoCtx ctx) !! "__LINKEDIT" = Some sc ->
      WriteOutcome outputPath ctx fs (Ok tt)
                   (<[outputPath := os.File (output_bytes ctx sc)]> fs1)
                   [EvMkdir (parent outputPath); EvOpen outputPath;
                    EvWrite outputPath (output_bytes ctx sc)].

(** What [_extractImage] makes of the way its [try] block ended in state
    [s]: an [Exception] is logged and the stream's text returned; any other
    exception leaves the function. *)
Definition after_try `{Imports} (lg : Logger) (r : Result unit) (s : WState)
    : Result string * WState :=
  match r with
  | Ok _ => (Ok (w_stream s), s)
  | Raise e =>
      if isinstance_Exception (exc_class e) then
        let text := handle lg (w_stream s) (exception_record e) in
        (Ok text, mkWState (w_fs s) text (w_trace s))
      else (Raise e, s)
  end.

(** The coordinator's state when [_main] starts on the file tree [fs]. *)
Definition c_init (fs : os.FS) : CState := mkCState fs 0 [] [] 0 [] [].

(** What the coordinator prints when the job for [imagePath] completes with
    the log text [jobOutput]: the per-image line, and the summary block when
    the text is not empty. *)
Definition job_prints (imagePath jobOutput : string) : list string :=
  ("Processed: " ++ split_last imagePath)%string
  :: (if String.eqb jobOutput "" then []
      else [summary_of (split_last imagePath) jobOutput]).

(** What the completion adds to [jobOutputs]. *)
Definition job_summary (imagePath jobOutput : string) : list string :=
  if String.eqb jobOutput "" then []
  else [summary_of (split_last imagePath) jobOutput].

(** The three [print] calls at the end of [_main], for the summary blocks
    [jobOutputs]. *)
Definition final_prints (jobOutputs : list string) : list string :=
  [ (nl ++ nl ++ "----- Summary -----")%string;
    String.concat "" jobOutputs;
    ("-------------------" ++ nl)%string ].

(** A completed job: its image path, the job, and the number of polls made
    when it was found ready. *)
Record Completion := mkCompletion {
  cp_path : string;
  cp_job : AsyncResult;
  cp_clock : nat
}.

(** The text a job returned (empty for a job that raised). *)
Definition cp_output (d : Completion) : string :=
  match ar_value (cp_job d) with
  | Ok text => text
  | Raise _ => ""
  end.

Definition cp_event (d : Completion) : CEvent :=
  CComplete (cp_path d) (ar_number (cp_job d)) (cp_clock d).

(** State [s'] is state [s] after the completions [done]. *)
Record Completed (s s' : CState) (done : list Completion) : Prop := {
  cd_fs : c_fs s' = c_fs s;
  cd_stdout : c_stdout s' =
    c_stdout s ++ List.flat_map (fun d => job_prints (cp_path d) (cp_output d)) done;
  cd_jobOutputs : c_jobOutputs s' =
    c_jobOutputs s ++ List.flat_map (fun d => job_summary (cp_path d) (cp_output d)) done;
  cd_jobsComplete : c_jobsComplete s' = c_jobsComplete s + List.length done;
  cd_trace : c_trace s' = c_trace s ++ List.map cp_event done
}.

(** The path of an image as the coordinator reads it from the cache. *)
Definition path_read `{Imports} (dyldCtx : DyldContext) (image : dyld_cache_image_info)
    (imagePath : string) : Prop :=
  exists raw, readString dyldCtx (pathFileOffset image) = Ok raw /\
              decode_utf8 (str_drop_last raw) = Ok imagePath.

(** The jobs [_main] submits for the image paths [imagePaths], from the job
    number [i] on, and the events of their submission. *)
Definition jobs_for `{Imports} (sch : Schedule) (dyldPath outputDir : PurePath)
    (level : Z) (i : nat) (imagePaths : list string) : list (string * AsyncResult) :=
  imap (fun k p => (p, apply_async sch (i + k) dyldPath outputDir p level)) imagePaths.

Definition submissions (dyldPath outputDir : PurePath) (level : Z) (i : nat)
    (imagePaths : list string) : list CEvent :=
  imap (fun k p => CSubmit dyldPath outputDir (Z.of_nat (i + k)) p level) imagePaths.

(** State [s] with the events [evs] added. *)
Definition c_after (s : CState) (evs : list CEvent) : CState :=
  mkCState (c_fs s) (c_clock s) (c_stdout s) (c_jobOutputs s) (c_jobsComplete s)
           (c_progress s) (c_trace s ++ evs).

(** The pool [_main] creates in process [proc]. *)
Definition main_pool `{Imports} (proc : Process) : Pool :=
  new_Pool proc cpu_count (Some _workerInitializer).

(** The worker of a job returned, so that [job.get()] does not raise. *)
Definition job_ok (pj : string * AsyncResult) : Prop := is_Ok (ar_value (snd pj)) = true.

Definition cp_entry (d : Completion) : string * AsyncResult := (cp_path d, cp_job d).

(** The latest completion time among the jobs. *)
Definition last_done_at (jobs : list (string * AsyncResult)) : nat :=
  List.list_max (List.map (fun pj => ar_done_at (snd pj)) jobs).

(** A computation of the coordinator only adds events, all of them in [P],
    however it ends. *)
Definition Grows (P : CEvent -> Prop) {A} (m : M CState A) : Prop :=
  forall s, exists evs, c_trace (snd (m s)) = c_trace s ++ evs /\ Forall P evs.

Definition no_pool (ev : CEvent) : Prop :=
  match ev with CPool _ => False | _ => True end.

(** The one pool event of [_main] is that of [main_pool]. *)
Definition pool_is `{Imports} (proc : Process) (ev : CEvent) : Prop :=
  forall pool, ev = CPool pool -> pool = main_pool proc.

(** The job numbers of the completions among the events, in order. *)
Fixpoint completed_numbers (tr : list CEvent) : list nat :=
  match tr with
  | [] => []
  | CComplete _ job _ :: tr' => job :: completed_numbers tr'
  | _ :: tr' => completed_numbers tr'
  end.

(** What a successful [Path.mkdir(parents=True, exist_ok=True)] did. *)
Record MkdirEffect (p : PurePath) (fs fs' : os.FS) : Prop := {
  me_is_dir : os.is_dir fs' p = true;
  me_keeps : forall q n, fs !! q = Some n -> fs' !! q = Some n;
  me_new : forall q, fs' !! q <> fs !! q ->
           fs !! q = None /\ fs' !! q = Some os.Dir /\ parts q <> [] /\
           List.length (parts q) <= List.length (parts p);
  me_tree : os.tree_ok fs -> os.tree_ok fs'
}.

(** ** Further notions *)

(** The records a logger lets through. *)
Definition enabled (lg : Logger) (r : LogRecord) : bool := isEnabledFor lg (levelno r).

(** The text of records written to a stream one after the other. *)
Definition render `{Imports} (rs : list LogRecord) : string :=
  String.concat "" (List.map (fun r => (format r ++ nl)%string) rs).

(** No slash occurs in the string. *)
Fixpoint no_slash (s : string) : bool :=
  match s with
  | EmptyString => true
  | String c s' => negb (is_slash c) && no_slash s'
  end.

(** The progress bar has been shown the values 1, 2, ... up to the number of
    jobs completed so far. *)
Definition Counted (s : CState) : Prop :=
  c_progress s = List.seq 1 (c_jobsComplete s).

Definition is_CRead (ev : CEvent) : Prop :=
  match ev with CRead _ => True | _ => False end.

Definition is_CSubmit (ev : CEvent) : Prop :=
  match ev with CSubmit _ _ _ _ _ => True | _ => False end.

Definition is_CComplete (ev : CEvent) : Prop :=
  match ev with CComplete _ _ _ => True | _ => False end.

(** More small caches and converters to run the definitions on. *)
Module Edge.

(** A converter that leaves no segment at all. *)
Definition drop_segments (ctx : ExtractionContext) : StepResult :=
  mkStepResult []
    (Ok (mkExtractionContext (dyldCtx ctx)
           (mkMachOContext (file (machoCtx ctx)) (fileOffset (machoCtx ctx)) ∅)
           (statusBar ctx) (logger ctx))).


(** A converter that logs at three levels and returns. *)
Definition chatty (ctx : ExtractionContext) : StepResult :=
  mkStepResult [mkRecord DEBUG "slots" None; mkRecord WARNING "odd page" None;
                mkRecord INFO "done" None]
               (Ok ctx).

Definition imports_nolinkedit : Imports := Sample.imports_with Sample.quiet drop_segments.
Definition imports_chatty : Imports := Sample.imports_with chatty Sample.quiet.



(** [_main] up to the loop on the sample cache with these imports. *)
Definition submitted_jobs (I : Imports) : list (string * AsyncResult) :=
  Sample.submitted_jobs I.

(** The sample file tree once the directories above the first image's output
    path are made. *)
Definition made_dirs : os.FS :=
  match os.Path_mkdir (parent Sample.out_A) Sample.fs0 with
  | Ok fs => fs
  | Raise _ => Sample.fs0
  end.

End Edge.

(** ** The models on small inputs *)

Example Path_default : Path "./binaries/" = Path "binaries".
Proof. reflexivity. Qed.

Example truediv_relative :
  Path "binaries" // "usr/lib/libA.dylib"
  = mkPath "" ["binaries"; "usr"; "lib"; "libA.dylib"].
Proof. reflexivity. Qed.

Example truediv_rooted : Path "binaries" // "/usr/lib" = mkPath "/" ["usr"; "lib"].
Proof. reflexivity. Qed.

Example relative_imagePath_slash :
  relative_imagePath "/usr/lib/libA.dylib" = Ok "usr/lib/libA.dylib".
Proof. reflexivity. Qed.

Example split_last_name : split_last "/usr/lib/libA.dylib" = "libA.dylib".
Proof. reflexivity. Qed.

Example str_drop_last_nul :
  str_drop_last ("/usr/lib/libA.dylib" ++ Sample.nul) = "/usr/lib/libA.dylib".
Proof. reflexivity. Qed.

Example mmap_read_short :
  mmap.read (mmap.mk Sample.cache_path mmap.ACCESS_COPY Sample.cache_bytes 0) 12
  = Ok (Sample.cache_bytes,
        mmap.mk Sample.cache_path mmap.ACCESS_COPY Sample.cache_bytes 4).
Proof. reflexivity. Qed.

Example worker_writes_file :
  w_fs (snd (@run_extractImage Sample.imports Sample.cache_path (Path "binaries") 0
               "/usr/lib/libA.dylib" WARNING Sample.fs0)) !! Sample.out_A
  = Some (os.File [Byte.x01; Byte.x02; Byte.x03]).
Proof. vm_compute. reflexivity. Qed.

(** ** The worker, step by step *)

Section Worker.
Context `{Imports}.

Lemma write_file_outcome (outputPath : PurePath) (ctx : ExtractionContext) (s : WState) :
  exists r fs' evs,
    write_file outputPath ctx s = (r, mkWState fs' (w_stream s) (w_trace s ++ evs)) /\
    WriteOutcome outputPath ctx (w_fs s) r fs' evs.
Proof.
  destruct s as [fs st tr].
  unfold write_file, bind, event, modify, on_fs, lift; simpl.
  destruct (os.Path_mkdir (parent outputPath) fs) as [fs1|e] eqn:Hmk.
  2:{ eexists _, _, _; split; [reflexivity|]. by constructor. }
  simpl.
  destruct (os.open_wb outputPath fs1) as [fs2|e] eqn:Hop.
  2:{ eexists _, _, _; split; [by rewrite <- app_assoc|]. by econstructor. }
  assert (fs2 = <[outputPath := os.File []]> fs1) as ->.
  { unfold os.open_wb in Hop.
    repeat (case_match; simplify_eq); done. }
  simpl.
  unfold dict_getitem.
  destruct (segments (machoCtx ctx) !! "__LINKEDIT") as [sc|] eqn:Hseg.
  2:{ eexists _, _, _; split; [by rewrite <- app_assoc|].
      eapply wo_size_fails; eauto. left. unfold dict_getitem. by rewrite Hseg. }
  unfold mmap.read.
  destruct (2 ^ 63 <=? fileoff (seg sc) + filesize (seg sc))%N eqn:Hov.
  { eexists _, _, _; split; [by rewrite <- app_assoc|].
    eapply wo_size_fails; eauto. right. exists sc.
    apply N.leb_le in Hov. done. }
  simpl. unfold os.write. rewrite lookup_insert_eq. simpl.
  rewrite insert_insert_eq.
  eexists _, _, _; split.
  { rewrite <- !app_assoc. simpl. reflexivity. }
  by apply wo_written.
Qed.

Lemma fold_handle_app (lg : Logger) (a b : list LogRecord) (st : string) :
  List.fold_left (handle lg) (a ++ b) st
  = List.fold_left (handle lg) b (List.fold_left (handle lg) a st).
Proof. apply fold_left_app. Qed.

(** The [try] block: the converters run in order on the contexts handed
    on, and the file is written once all five have returned. *)
Lemma try_body_run (lg : Logger) (outputPath : PurePath) (ctx : ExtractionContext)
    (s : WState) :
  let r := run_converters converters ctx in
  let s1 := mkWState (w_fs s) (List.fold_left (handle lg) (p_log r) (w_stream s))
                     (w_trace s ++ List.map EvCall (p_calls r)) in
  try_body lg outputPath ctx s =
    match p_out r with
    | Raise e => (Raise e, s1)
    | Ok ctx5 => write_file outputPath ctx5 s1
    end.
Proof.
  destruct s as [fs st tr].
  unfold try_body, converters, call, bind, event, log_all, modify, lift. simpl.
  destruct (sr_out (processSlideInfo ctx)) as [ctx1|e]; simpl; [|done].
  destruct (sr_out (optimizeLinkedit ctx1)) as [ctx2|e]; simpl;
    [|by rewrite fold_handle_app, <- !app_assoc].
  destruct (sr_out (fixStubs ctx2)) as [ctx3|e]; simpl;
    [|by rewrite !fold_handle_app, <- !app_assoc].
  destruct (sr_out (fixObjC ctx3)) as [ctx4|e]; simpl;
    [|by rewrite !fold_handle_app, <- !app_assoc].
  destruct (sr_out (optimizeOffsets ctx4)) as [ctx5|e]; simpl;
    [|by rewrite !fold_handle_app, <- !app_assoc].
  by rewrite !fold_handle_app, <- !app_assoc.
Qed.

Lemma extract_setup_inv (dyldPath outputDir : PurePath) (imageIndex : Z)
    (imagePath : string) (loggingLevel : Z) (s s0 : WState)
    (outputPath : PurePath) (ctx : ExtractionContext) :
  extract_setup dyldPath outputDir imageIndex imagePath loggingLevel s
    = (Ok (outputPath, ctx), s0) ->
  exists rel content,
    relative_imagePath imagePath = Ok rel /\
    outputPath = outputDir // rel /\
    s0 = mkWState (w_fs s) "" (w_trace s) /\
    os.open_rb dyldPath (w_fs s) = Ok content /\
    dyld_file (dyldCtx ctx) = mmap.mk dyldPath mmap.ACCESS_READ content 0 /\
    file (machoCtx ctx) = mmap.mk dyldPath mmap.ACCESS_COPY content 0 /\
    logger ctx = mkLogger ("Worker: " ++ str_path outputPath) loggingLevel.
Proof.
  unfold extract_setup, bind, lift, modify, ret. simpl.
  destruct (relative_imagePath imagePath) as [rel|] eqn:Hrel; [|done].
  destruct (os.open_rb dyldPath (w_fs s)) as [content|] eqn:Hopen; [|done].
  unfold mmap.mmap, new_DyldContext, new_MachOContext.
  destruct content as [|b content]; [done|]. simpl.
  destruct (DyldContext_parse (b :: content)) as [imgs|]; [|done].
  simpl.
  destruct (list_getitem imgs imageIndex) as [image|]; [|done].
  destruct (convertAddr _ (address image)) as [off|]; [|done].
  destruct (MachOContext_parse (b :: content) off) as [segs|]; [|done].
  intros [= <- <- <-]. exists rel, (b :: content). done.
Qed.

(** [_extractImage] once the contexts are built: the [try] block, then the
    handler, then the stream's text. *)
Lemma extractImage_run (dyldPath outputDir : PurePath) (imageIndex : Z)
    (imagePath : string) (loggingLevel : Z) (s s0 : WState)
    (outputPath : PurePath) (ctx : ExtractionContext) :
  extract_setup dyldPath outputDir imageIndex imagePath loggingLevel s
    = (Ok (outputPath, ctx), s0) ->
  _extractImage dyldPath outputDir imageIndex imagePath loggingLevel s
    = after_try (logger ctx) (fst (try_body (logger ctx) outputPath ctx s0))
                (snd (try_body (logger ctx) outputPath ctx s0)).
Proof.
  intros Hs. unfold _extractImage, bind at 1. rewrite Hs.
  unfold try_except_Exception, bind, after_try, log, modify, get, ret.
  destruct (try_body (logger ctx) outputPath ctx s0) as [[[]|e] s1]; simpl; [done|].
  by destruct (isinstance_Exception (exc_class e)).
Qed.

End Worker.

(** ** The file tree: what [Path.mkdir] and [open] leave *)

Section FileTree.
Implicit Types (fs : os.FS) (p q : PurePath).

Lemma mkdir_inv p fs fs' :
  os.mkdir p fs = Ok fs' ->
  parts p <> [] /\ fs !! p = None /\ os.stat fs (parent p) = Some os.Dir /\
  fs' = <[p := os.Dir]> fs.
Proof.
  unfold os.mkdir. intros Hm.
  destruct (parts p) eqn:Hp; [done|].
  destruct (os.stat fs (parent p)) as [[]|]; try done.
  destruct (fs !! p); [done|]. by simplify_eq.
Qed.

Lemma mkdir_exc p fs e :
  os.mkdir p fs = Raise e -> exc_class e <> RecursionError.
Proof.
  unfold os.mkdir. intros Hm.
  repeat (case_match; simplify_eq); done.
Qed.

Lemma mkdir_no_parts p fs e :
  parts p = [] -> os.mkdir p fs = Raise e -> exc_class e = FileExistsError.
Proof. unfold os.mkdir. intros ->. by intros [= <-]. Qed.


Lemma parent_length p : List.length (parts (parent p)) = List.length (parts p) - 1.
Proof.
  destruct p as [r ps]. simpl.
  destruct ps as [|x ps] using rev_ind; [done|].
  rewrite removelast_last, length_app. simpl. lia.
Qed.

(** Making one directory keeps the tree a tree. *)
Lemma tree_ok_insert_dir p fs :
  os.tree_ok fs -> os.stat fs (parent p) = Some os.Dir ->
  os.tree_ok (<[p := os.Dir]> fs).
Proof.
  intros Hok Hpar q n Hq.
  assert (os.stat fs (parent q) = Some os.Dir) as Hpq.
  { destruct (decide (q = p)) as [->|Hne]; [done|].
    rewrite lookup_insert_ne in Hq by done. by eapply Hok. }
  unfold os.stat in *.
  destruct (parts (parent q)); [done|].
  destruct (decide (parent q = p)) as [->|Hne].
  - by rewrite lookup_insert_eq.
  - by rewrite lookup_insert_ne.
Qed.

Lemma MkdirEffect_refl p fs : os.is_dir fs p = true -> MkdirEffect p fs fs.
Proof. intros Hd. by split. Qed.

Lemma MkdirEffect_mkdir p fs fs' : os.mkdir p fs = Ok fs' -> MkdirEffect p fs fs'.
Proof.
  intros (Hne & Hnone & Hpar & ->)%mkdir_inv. split.
  - unfold os.is_dir, os.stat. destruct (parts p); [done|].
    by rewrite lookup_insert_eq.
  - intros q n Hq. rewrite lookup_insert_ne; [done|]. by intros ->; simplify_eq.
  - intros q Hq. destruct (decide (q = p)) as [->|Hqp].
    + by rewrite lookup_insert_eq.
    + by rewrite lookup_insert_ne in Hq.
  - intros Hok. by apply tree_ok_insert_dir.
Qed.

Lemma MkdirEffect_here p fs fs' :
  os.Path_mkdir_here p fs = Ok fs' -> MkdirEffect p fs fs'.
Proof.
  unfold os.Path_mkdir_here.
  destruct (os.mkdir p fs) as [fs1|e] eqn:Hm.
  - intros [= <-]. by apply MkdirEffect_mkdir.
  - destruct (os.is_dir fs p) eqn:Hd.
    + destruct (exc_class e); intros; simplify_eq; by apply MkdirEffect_refl.
    + destruct (exc_class e); done.
Qed.

Lemma MkdirEffect_parent_then p fs fs1 fs2 :
  MkdirEffect (parent p) fs fs1 -> MkdirEffect p fs1 fs2 -> MkdirEffect p fs fs2.
Proof.
  intros [_ K1 N1 T1] [D2 K2 N2 T2]. split; [done| | |by auto].
  - intros q n Hq. by apply K2, K1.
  - intros q Hq.
    assert (fs1 !! q = fs !! q \/ fs1 !! q <> fs !! q) as [E1|E1].
    { destruct (fs !! q) as [n|] eqn:Hfq; [left; by apply K1|].
      destruct (fs1 !! q); [by right|by left]. }
    + rewrite <- E1. apply N2. by rewrite E1.
    + destruct (N1 q E1) as (Hnone & Hdir & Hparts & Hlen).
      split; [done|]. split; [by apply K2|]. split; [done|].
      rewrite parent_length in Hlen. lia.
Qed.

Lemma Path_mkdir_fuel_effect fuel p fs fs' :
  os.Path_mkdir_fuel fuel p fs = Ok fs' -> MkdirEffect p fs fs'.
Proof.
  revert p fs fs'. induction fuel as [|fuel IH]; intros p fs fs'; simpl.
  - destruct (os.mkdir p fs) as [fs1|e] eqn:Hm.
    + intros [= <-]. by apply MkdirEffect_mkdir.
    + destruct (os.is_dir fs p) eqn:Hd.
      * destruct (exc_class e); try case_decide; intros; simplify_eq;
          by apply MkdirEffect_refl.
      * destruct (exc_class e); try case_decide; done.
  - destruct (os.mkdir p fs) as [fs1|e] eqn:Hm.
    + intros [= <-]. by apply MkdirEffect_mkdir.
    + assert (forall r, (if os.is_dir fs p then Ok fs else Raise r) = Ok fs' ->
                        MkdirEffect p fs fs') as Hshort.
      { intros r. destruct (os.is_dir fs p) eqn:Hd; [|done].
        intros [= <-]. by apply MkdirEffect_refl. }
      destruct (exc_class e); try (by apply Hshort).
      case_decide; [done|].
      destruct (os.Path_mkdir_fuel fuel (parent p) fs) as [fs1|e1] eqn:Hrec; [|done].
      intros Hhere. eapply MkdirEffect_parent_then.
      * by apply IH.
      * by apply MkdirEffect_here.
Qed.

Lemma Path_mkdir_effect p fs fs' :
  os.Path_mkdir p fs = Ok fs' -> MkdirEffect p fs fs'.
Proof. apply Path_mkdir_fuel_effect. Qed.

(** The fuel [Path_mkdir] gives is enough: the recursion never runs out. *)
Lemma Path_mkdir_fuel_enough fuel p fs e :
  List.length (parts p) <= fuel ->
  os.Path_mkdir_fuel fuel p fs = Raise e -> exc_class e <> RecursionError.
Proof.
  revert p fs e. induction fuel as [|fuel IH]; intros p fs e Hlen; simpl.
  - destruct (os.mkdir p fs) as [fs1|e0] eqn:Hm; [done|].
    assert (parts p = []) as Hnil by (destruct (parts p); simpl in *; [done|lia]).
    rewrite (mkdir_no_parts _ _ _ Hnil Hm).
    destruct (os.is_dir fs p); [done|]. intros [= <-].
    by rewrite (mkdir_no_parts _ _ _ Hnil Hm).
  - destruct (os.mkdir p fs) as [fs1|e0] eqn:Hm; [done|].
    pose proof (mkdir_exc _ _ _ Hm) as Hcls.
    assert ((if os.is_dir fs p then Ok fs else Raise e0) = Raise e ->
            exc_class e <> RecursionError) as Hshort.
    { destruct (os.is_dir fs p); [done|]. by intros [= <-]. }
    destruct (exc_class e0) eqn:Hc; try (by apply Hshort).
    case_decide; [by intros [= <-]; rewrite Hc|].
    destruct (os.Path_mkdir_fuel fuel (parent p) fs) as [fs1|e1] eqn:Hrec.
    + unfold os.Path_mkdir_here.
      destruct (os.mkdir p fs1) as [fs2|e2] eqn:Hm2; [done|].
      pose proof (mkdir_exc _ _ _ Hm2) as Hcls2.
      destruct (exc_class e2) eqn:Hc2; destruct (os.is_dir fs1 p);
        intros; simplify_eq; by rewrite ?Hc2.
    + intros [= <-]. eapply IH; [|done]. rewrite parent_length. lia.
Qed.

Lemma Path_mkdir_no_RecursionError p fs e :
  os.Path_mkdir p fs = Raise e -> exc_class e <> RecursionError.
Proof. by apply Path_mkdir_fuel_enough. Qed.



End FileTree.

(** ** The worker as a whole *)

Section WorkerRun.
Context `{Imports}.


Lemma run_converters_ok_calls cs (ctx ctx' : ExtractionContext) :
  p_out (run_converters cs ctx) = Ok ctx' ->
  p_calls (run_converters cs ctx) = List.map fst cs.
Proof.
  revert ctx. induction cs as [|[c f] cs IH]; intros ctx; simpl; [done|].
  destruct (sr_out (f ctx)) as [ctx1|e]; simpl; [|done].
  intros Hout. f_equal. by apply IH.
Qed.


(** Every run of a worker that built its contexts: the converters run, then
    either the first exception is handled, or the file is written. *)
Lemma run_extractImage_cases (dyldPath outputDir : PurePath) (imageIndex : Z)
    (imagePath : string) (loggingLevel : Z) (fs : os.FS) (s0 : WState)
    (outputPath : PurePath) (ctx : ExtractionContext) :
  extract_setup dyldPath outputDir imageIndex imagePath loggingLevel (mkWState fs "" [])
    = (Ok (outputPath, ctx), s0) ->
  let r := run_converters converters ctx in
  let text := log_text (logger ctx) (p_log r) in
  let run := run_extractImage dyldPath outputDir imageIndex imagePath loggingLevel fs in
  match p_out r with
  | Raise e =>
      run = after_try (logger ctx) (Raise e)
                      (mkWState fs text (List.map EvCall (p_calls r)))
  | Ok ctx5 =>
      exists wr fs' evs,
        WriteOutcome outputPath ctx5 fs wr fs' evs /\
        run = after_try (logger ctx) wr
                        (mkWState fs' text (List.map EvCall (p_calls r) ++ evs))
  end.
Proof.
  intros Hs. cbv zeta.
  pose proof (extract_setup_inv _ _ _ _ _ _ _ _ _ Hs)
    as (rel & content & _ & _ & Hs0 & _).
  cbn [w_fs w_trace] in Hs0. subst s0.
  unfold run_extractImage. rewrite (extractImage_run _ _ _ _ _ _ _ _ _ Hs).
  rewrite try_body_run. cbv zeta. cbn [w_fs w_stream w_trace app].
  unfold log_text.
  destruct (p_out (run_converters converters ctx)) as [ctx5|e]; [|done].
  destruct (write_file_outcome outputPath ctx5
              (mkWState fs
                 (List.fold_left (handle (logger ctx))
                                 (p_log (run_converters converters ctx)) "")
                 (List.map EvCall (p_calls (run_converters converters ctx)))))
    as (wr & fs' & evs & -> & Hwo).
  by exists wr, fs', evs.
Qed.

Lemma after_try_state (lg : Logger) (r : Result unit) (s : WState) :
  w_fs (snd (after_try lg r s)) = w_fs s /\
  w_trace (snd (after_try lg r s)) = w_trace s.
Proof.
  unfold after_try. destruct r as [|e]; [done|].
  by destruct (isinstance_Exception (exc_class e)).
Qed.

(** An exception raised while the contexts are built, before the [try]
    statement, leaves [_extractImage]. *)
Lemma extract_setup_raises (dyldPath outputDir : PurePath) (imageIndex : Z)
    (imagePath : string) (loggingLevel : Z) (fs : os.FS) (s0 : WState) (e : PyExc) :
  extract_setup dyldPath outputDir imageIndex imagePath loggingLevel (mkWState fs "" [])
    = (Raise e, s0) ->
  run_extractImage dyldPath outputDir imageIndex imagePath loggingLevel fs = (Raise e, s0).
Proof.
  intros Hs. unfold run_extractImage, _extractImage, bind at 1. by rewrite Hs.
Qed.

(** A worker that built its contexts returns its log text unless the [try]
    block raises something that is not an [Exception]. *)
Lemma extractImage_returns (dyldPath outputDir : PurePath) (imageIndex : Z)
    (imagePath : string) (loggingLevel : Z) (fs : os.FS) (s0 : WState)
    (outputPath : PurePath) (ctx : ExtractionContext) :
  extract_setup dyldPath outputDir imageIndex imagePath loggingLevel (mkWState fs "" [])
    = (Ok (outputPath, ctx), s0) ->
  (forall e, fst (try_body (logger ctx) outputPath ctx s0) = Raise e ->
             isinstance_Exception (exc_class e) = true) ->
  is_Ok (fst (run_extractImage dyldPath outputDir imageIndex imagePath loggingLevel fs))
  = true.
Proof.
  intros Hs Hexc. unfold run_extractImage.
  rewrite (extractImage_run _ _ _ _ _ _ _ _ _ Hs). unfold after_try.
  destruct (fst (try_body (logger ctx) outputPath ctx s0)) as [[]|e]; [done|].
  by rewrite (Hexc e eq_refl).
Qed.

Lemma calls_never_write (cs : list Converter) (p : PurePath) (d : bytes) :
  ~ In (EvWrite p d) (List.map EvCall cs).
Proof. intros (c & Hc & _)%in_map_iff. done. Qed.

Lemma calls_never_open (cs : list Converter) (p : PurePath) :
  ~ In (EvOpen p) (List.map EvCall cs).
Proof. intros (c & Hc & _)%in_map_iff. done. Qed.

End WorkerRun.

(** ** The claims on the worker *)

(** C10. With an empty image path, [_extractImage] raises [IndexError] at
    [imagePath[0]]: the exception leaves the function although it is an
    [Exception], since the [try] statement has not been entered, nothing is
    logged and nothing is called, and [job.get()] raises it again in the
    coordinator.  On a path with a first character the strip is defined: it
    drops that character when it is a slash and keeps the path otherwise. *)
Theorem extractImage_empty_path_raises `{Imports} (dyldPath outputDir : PurePath)
    (imageIndex : Z) (loggingLevel : Z) (fs : os.FS) :
  let e := mkExc IndexError "string index out of range" in
  run_extractImage dyldPath outputDir imageIndex "" loggingLevel fs
    = (Raise e, mkWState fs "" [])
  /\ isinstance_Exception (exc_class e) = true
  /\ (forall sch i cs,
        AsyncResult_get (apply_async sch i dyldPath outputDir "" loggingLevel) cs
        = (Raise e, cs))
  /\ (forall c rest,
        relative_imagePath (String c rest)
        = Ok (if is_slash c then rest else String c rest)).
Proof. done. Qed.

(** C1, amended.  An [Exception] raised by one of the five converters is
    caught inside [_extractImage]: the worker returns its log text, touches
    no file and calls nothing further, and [job.get()] hands that text to
    the coordinator without raising.  The error is recorded at the end of
    the log text when the logging level is at most [ERROR] (verbosity 1 to
    3); above it (verbosity 0, level 100) the text holds the converters'
    records only. *)
Theorem extractImage_catches_converter_error `{Imports}
    (dyldPath outputDir : PurePath) (imageIndex : Z) (imagePath : string)
    (loggingLevel : Z) (fs : os.FS) (s0 : WState)
    (outputPath : PurePath) (ctx : ExtractionContext) (e : PyExc) :
  extract_setup dyldPath outputDir imageIndex imagePath loggingLevel (mkWState fs "" [])
    = (Ok (outputPath, ctx), s0) ->
  p_out (run_converters converters ctx) = Raise e ->
  isinstance_Exception (exc_class e) = true ->
  let r := run_converters converters ctx in
  let text := log_text (logger ctx) (p_log r) in
  exists blob,
    run_extractImage dyldPath outputDir imageIndex imagePath loggingLevel fs
      = (Ok blob, mkWState fs blob (List.map EvCall (p_calls r)))
    /\ (forall sch i cs,
          imageIndex = Z.of_nat i -> fs_of sch i = fs ->
          AsyncResult_get (apply_async sch i dyldPath outputDir imagePath loggingLevel) cs
          = (Ok blob, cs))
    /\ ((loggingLevel <= ERROR)%Z ->
        blob = (text ++ format (exception_record e) ++ nl)%string)
    /\ ((ERROR < loggingLevel)%Z -> blob = text)
    /\ (forall verbosity, loggingLevel_of verbosity = Some loggingLevel ->
          (loggingLevel <= ERROR)%Z <-> verbosity <> 0%Z).
Proof.
  intros Hs He Hexc r text.
  pose proof (run_extractImage_cases _ _ _ _ _ _ _ _ _ Hs) as Hrun.
  cbv zeta in Hrun. rewrite He in Hrun.
  unfold after_try in Hrun. rewrite Hexc in Hrun.
  cbn [w_fs w_stream w_trace] in Hrun. fold r text in Hrun.
  eexists. split; [exact Hrun|].
  pose proof (extract_setup_inv _ _ _ _ _ _ _ _ _ Hs)
    as (rel & content & _ & _ & _ & _ & _ & _ & Hlg).
  split.
  { intros sch i cs -> <-. unfold AsyncResult_get, apply_async, lift. simpl.
    by rewrite Hrun. }
  unfold handle, isEnabledFor, getEffectiveLevel, emit. rewrite Hlg. simpl.
  unfold ERROR, NOTSET, WARNING, nl.
  split; [|split]; [intros Hlvl|intros Hlvl|].
  - destruct (loggingLevel =? 0)%Z eqn:Hz.
    + done.
    + destruct (loggingLevel <=? 40)%Z eqn:Hle; [done|lia].
  - destruct (loggingLevel =? 0)%Z eqn:Hz; [lia|].
    destruct (loggingLevel <=? 40)%Z eqn:Hle; [lia|done].
  - intros v. unfold loggingLevel_of, INFO, DEBUG, WARNING.
    repeat (case_match; simplify_eq); intros; simplify_eq; lia.
Qed.


(** C4, amended.  When the [try] block ends without an exception, the
    output file holds the bytes of the transformed buffer from byte 0 up to
    [__LINKEDIT]'s file offset plus file size, and nothing else; when the
    buffer is at least that long the output length equals that sum, and a
    shorter buffer is written out whole. *)
Theorem extractImage_output_bytes `{Imports}
    (dyldPath outputDir : PurePath) (imageIndex : Z) (imagePath : string)
    (loggingLevel : Z) (fs : os.FS) (s0 : WState)
    (outputPath : PurePath) (ctx : ExtractionContext) :
  extract_setup dyldPath outputDir imageIndex imagePath loggingLevel (mkWState fs "" [])
    = (Ok (outputPath, ctx), s0) ->
  fst (try_body (logger ctx) outputPath ctx s0) = Ok tt ->
  let s' := snd (run_extractImage dyldPath outputDir imageIndex imagePath loggingLevel fs) in
  exists ctx5 sc,
    p_out (run_converters converters ctx) = Ok ctx5 /\
    segments (machoCtx ctx5) !! "__LINKEDIT" = Some sc /\
    let n := N.to_nat (fileoff (seg sc) + filesize (seg sc)) in
    let buffer := mmap.data (file (machoCtx ctx5)) in
    w_fs s' !! outputPath = Some (os.File (List.firstn n buffer)) /\
    (n <= List.length buffer -> List.length (List.firstn n buffer) = n) /\
    (List.length buffer <= n -> List.firstn n buffer = buffer).
Proof.
  intros Hs Hok. cbv zeta.
  pose proof (extract_setup_inv _ _ _ _ _ _ _ _ _ Hs)
    as (rel & content & _ & _ & Hs0 & _).
  cbn [w_fs w_trace] in Hs0. subst s0.
  unfold run_extractImage. rewrite (extractImage_run _ _ _ _ _ _ _ _ _ Hs).
  rewrite try_body_run in Hok |- *. cbv zeta in Hok |- *.
  destruct (p_out (run_converters converters ctx)) as [ctx5|e] eqn:Hout; [|done].
  match type of Hok with fst (write_file _ _ ?s) = _ =>
    destruct (write_file_outcome outputPath ctx5 s) as (wr & fs' & evs & Hw & Hwo)
  end.
  rewrite Hw in Hok |- *. cbn [fst snd] in Hok |- *. subst wr.
  inversion Hwo; subst. exists ctx5, sc.
  split; [done|]. split; [done|].
  unfold after_try. cbn [snd w_fs]. rewrite lookup_insert_eq.
  split; [done|]. split.
  - intros Hle. rewrite length_firstn. lia.
  - intros Hle. by apply firstn_all2.
Qed.

(** C2. When one of the five converters raises, the worker leaves the file
    tree as it found it.  Bytes are written to the output path only after
    all five converters have returned, in one write that holds the whole
    output.  So at the end the output path holds what it held before the
    run, or an opened file nothing was written to (the size could not be
    had, after all five converters returned), or the whole output: never a
    part of it. *)
Theorem extractImage_no_partial_output `{Imports}
    (dyldPath outputDir : PurePath) (imageIndex : Z) (imagePath : string)
    (loggingLevel : Z) (fs : os.FS) (s0 : WState)
    (outputPath : PurePath) (ctx : ExtractionContext) :
  extract_setup dyldPath outputDir imageIndex imagePath loggingLevel (mkWState fs "" [])
    = (Ok (outputPath, ctx), s0) ->
  let s' := snd (run_extractImage dyldPath outputDir imageIndex imagePath loggingLevel fs) in
  let r := run_converters converters ctx in
  (forall e, p_out r = Raise e ->
     w_fs s' = fs /\ forall p, ~ In (EvOpen p) (w_trace s'))
  /\ (forall p d, In (EvWrite p d) (w_trace s') ->
        p = outputPath /\
        exists ctx5 sc,
          p_out r = Ok ctx5 /\
          p_calls r = [slide_info; linkedit_optimizer; stub_fixer; objc_fixer; macho_offset] /\
          segments (machoCtx ctx5) !! "__LINKEDIT" = Some sc /\
          d = output_bytes ctx5 sc /\
          w_fs s' !! outputPath = Some (os.File d))
  /\ (w_fs s' !! outputPath = fs !! outputPath
      \/ (w_fs s' !! outputPath = Some (os.File []) /\ exists ctx5, p_out r = Ok ctx5)
      \/ (exists ctx5 sc,
            p_out r = Ok ctx5 /\
            segments (machoCtx ctx5) !! "__LINKEDIT" = Some sc /\
            w_fs s' !! outputPath = Some (os.File (output_bytes ctx5 sc)))).
Proof.
  intros Hs. cbv zeta.
  pose proof (run_extractImage_cases _ _ _ _ _ _ _ _ _ Hs) as Hrun.
  cbv zeta in Hrun.
  destruct (p_out (run_converters converters ctx)) as [ctx5|e] eqn:Hout.
  - destruct Hrun as (wr & fs' & evs & Hwo & ->).
    destruct (after_try_state (logger ctx) wr
                (mkWState fs' (log_text (logger ctx) (p_log (run_converters converters ctx)))
                   (List.map EvCall (p_calls (run_converters converters ctx)) ++ evs)))
      as [-> ->].
    cbn [w_fs w_trace]. rewrite (run_converters_ok_calls _ _ _ Hout).
    split; [done|].
    inversion Hwo; subst; cbn.
    + split; [intros p d Hin; repeat (destruct Hin as [Hin|Hin]; [done|]); done|].
      by left.
    + split; [intros p d Hin; repeat (destruct Hin as [Hin|Hin]; [done|]); done|].
      left.
      match goal with Hmk : os.Path_mkdir _ _ = Ok _ |- _ =>
        apply Path_mkdir_effect in Hmk; destruct Hmk as [_ Hkeep Hnew _] end.
      destruct (fs !! outputPath) as [n|] eqn:Hfo; [by apply Hkeep|].
      destruct (fs' !! outputPath) eqn:Hf1; [|done].
      destruct (Hnew outputPath) as (_ & _ & Hne & Hlen); [by rewrite Hfo, Hf1|].
      rewrite parent_length in Hlen.
      destruct (parts outputPath); [done|]. simpl in Hlen. lia.
    + split; [intros p d Hin; repeat (destruct Hin as [Hin|Hin]; [done|]); done|].
      right; left. rewrite lookup_insert_eq. eauto.
    + rewrite lookup_insert_eq. split.
      * intros p d Hin.
        repeat (destruct Hin as [Hin|Hin]; [simplify_eq|]); [|done].
        split; [done|]. exists ctx5, sc. done.
      * right; right. exists ctx5, sc. done.
  - rewrite Hrun.
    destruct (after_try_state (logger ctx) (Raise e)
                (mkWState fs (log_text (logger ctx) (p_log (run_converters converters ctx)))
                   (List.map EvCall (p_calls (run_converters converters ctx)))))
      as [-> ->].
    cbn [w_fs w_trace]. split.
    + intros _ _. split; [done|]. intros p. apply calls_never_open.
    + split; [|by left]. intros p d Hin. by apply calls_never_write in Hin.
Qed.

Lemma extractImage_catches_converter_error_witness :
  exists blob,
    @run_extractImage Sample.imports_failing Sample.cache_path (Path "binaries") 0
                      "/usr/lib/libA.dylib" WARNING Sample.fs0
    = (Ok blob, mkWState Sample.fs0 blob [EvCall slide_info])
    /\ blob = String.concat nl ["odd slide info"; "v9"; ""].
Proof.
  destruct (@extractImage_catches_converter_error Sample.imports_failing
              Sample.cache_path (Path "binaries") 0 "/usr/lib/libA.dylib" WARNING
              Sample.fs0 (mkWState Sample.fs0 "" []) Sample.out_A
              (Sample.ctx_A WARNING) Sample.e_fail)
    as (blob & Hrun & _ & Hrec & _ & _).
  - vm_compute. reflexivity.
  - vm_compute. reflexivity.
  - reflexivity.
  - exists blob. split; [exact Hrun|].
    rewrite Hrec; [reflexivity|]. vm_compute. discriminate.
Defined.

(** C1 as stated fails at verbosity 0.  [_main] turns verbosity 0 into the
    level 100; the first converter raises an [Exception]; the worker returns
    the empty text, so the error is recorded nowhere in its log text. *)
Lemma counterexample_error_not_logged_at_verbosity_0 :
  loggingLevel_of 0 = Some 100%Z
  /\ @extract_setup Sample.imports_failing Sample.cache_path (Path "binaries") 0
        "/usr/lib/libA.dylib" 100 (mkWState Sample.fs0 "" [])
     = (Ok (Sample.out_A, Sample.ctx_A 100), mkWState Sample.fs0 "" [])
  /\ sr_out (@processSlideInfo Sample.imports_failing (Sample.ctx_A 100))
     = Raise Sample.e_fail
  /\ isinstance_Exception (exc_class Sample.e_fail) = true
  /\ @run_extractImage Sample.imports_failing Sample.cache_path (Path "binaries") 0
        "/usr/lib/libA.dylib" 100 Sample.fs0
     = (Ok "", mkWState Sample.fs0 "" [EvCall slide_info]).
Proof. repeat split; vm_compute; reflexivity. Qed.


Lemma extractImage_output_bytes_witness :
  exists ctx5 sc,
    p_out (run_converters (@converters Sample.imports) (Sample.ctx_A WARNING)) = Ok ctx5 /\
    segments (machoCtx ctx5) !! "__LINKEDIT" = Some sc /\
    w_fs (snd (@run_extractImage Sample.imports Sample.cache_path (Path "binaries") 0
                 "/usr/lib/libA.dylib" WARNING Sample.fs0)) !! Sample.out_A
    = Some (os.File (List.firstn (N.to_nat (fileoff (seg sc) + filesize (seg sc)))
                                 (mmap.data (file (machoCtx ctx5))))).
Proof.
  destruct (@extractImage_output_bytes Sample.imports
              Sample.cache_path (Path "binaries") 0 "/usr/lib/libA.dylib" WARNING
              Sample.fs0 (mkWState Sample.fs0 "" []) Sample.out_A (Sample.ctx_A WARNING))
    as (ctx5 & sc & Hout & Hseg & Hfile & _).
  - vm_compute. reflexivity.
  - vm_compute. reflexivity.
  - exists ctx5, sc. split; [exact Hout|]. split; [exact Hseg|]. exact Hfile.
Defined.

(** C4 as stated fails when the buffer ends before [__LINKEDIT] does.  The
    last converter leaves a [__LINKEDIT] segment at offset 2 of size 10 over
    a buffer of 4 bytes; the [try] block ends without an exception, and the
    output file holds the 4 bytes of the buffer, not 12. *)
Lemma counterexample_output_shorter_than_linkedit_end :
  let run := @run_extractImage Sample.imports_overlong Sample.cache_path
               (Path "binaries") 0 "/usr/lib/libA.dylib" WARNING Sample.fs0 in
  fst run = Ok ""
  /\ fst (@try_body Sample.imports_overlong (logger (Sample.ctx_A WARNING)) Sample.out_A
            (Sample.ctx_A WARNING) (mkWState Sample.fs0 "" [])) = Ok tt
  /\ (exists ctx5,
        p_out (run_converters (@converters Sample.imports_overlong) (Sample.ctx_A WARNING))
        = Ok ctx5 /\
        segments (machoCtx ctx5) !! "__LINKEDIT" = Some (mkSegmentContext (mkSeg 2 10)) /\
        List.length (mmap.data (file (machoCtx ctx5))) = 4)
  /\ w_fs (snd run) !! Sample.out_A = Some (os.File Sample.cache_bytes)
  /\ List.length Sample.cache_bytes = 4
  /\ N.to_nat (2 + 10) = 12.
Proof.
  cbv zeta. split; [vm_compute; reflexivity|]. split; [vm_compute; reflexivity|].
  split.
  - eexists. split; [vm_compute; reflexivity|]. split; vm_compute; reflexivity.
  - repeat split; vm_compute; reflexivity.
Qed.

Lemma extractImage_no_partial_output_witness :
  w_fs (snd (@run_extractImage Sample.imports_failing Sample.cache_path (Path "binaries") 0
               "/usr/lib/libA.dylib" WARNING Sample.fs0)) = Sample.fs0.
Proof.
  destruct (@extractImage_no_partial_output Sample.imports_failing
              Sample.cache_path (Path "binaries") 0 "/usr/lib/libA.dylib" WARNING
              Sample.fs0 (mkWState Sample.fs0 "" []) Sample.out_A (Sample.ctx_A WARNING))
    as [Hfail _].
  - vm_compute. reflexivity.
  - destruct (Hfail Sample.e_fail) as [Hfs _]; [vm_compute; reflexivity|exact Hfs].
Defined.

(** ** The mappings and the output path *)



(** A worker keeps every entry of the file tree other than its output
    path. *)
Lemma run_extractImage_keeps `{Imports}
    (dyldPath outputDir : PurePath) (imageIndex : Z) (imagePath : string)
    (loggingLevel : Z) (fs : os.FS) (s0 : WState)
    (outputPath : PurePath) (ctx : ExtractionContext) (q : PurePath) (n : os.Node) :
  extract_setup dyldPath outputDir imageIndex imagePath loggingLevel (mkWState fs "" [])
    = (Ok (outputPath, ctx), s0) ->
  q <> outputPath -> fs !! q = Some n ->
  w_fs (snd (run_extractImage dyldPath outputDir imageIndex imagePath loggingLevel fs)) !! q
  = Some n.
Proof.
  intros Hs Hq Hn.
  pose proof (run_extractImage_cases _ _ _ _ _ _ _ _ _ Hs) as Hrun.
  cbv zeta in Hrun.
  destruct (p_out (run_converters converters ctx)) as [ctx5|e].
  - destruct Hrun as (wr & fs' & evs & Hwo & ->).
    match goal with |- w_fs (snd (after_try ?lg ?r ?s)) !! _ = _ =>
      destruct (after_try_state lg r s) as [-> _] end.
    cbn [w_fs].
    inversion Hwo; subst; try done;
      match goal with Hmk : os.Path_mkdir _ _ = Ok _ |- _ =>
        apply Path_mkdir_effect in Hmk; destruct Hmk as [_ Hkeep _ _] end;
      rewrite ?lookup_insert_ne by done; by apply Hkeep.
  - rewrite Hrun.
    match goal with |- w_fs (snd (after_try ?lg ?r ?s)) !! _ = _ =>
      destruct (after_try_state lg r s) as [-> _] end.
    done.
Qed.






(** ** The coordinator, step by step *)

Section Coordinator.
Context `{Imports}.

Lemma Completed_refl (s : CState) : Completed s s [].
Proof. split; simpl; rewrite ?app_nil_r; auto. Qed.

Lemma Completed_trans (s s1 s2 : CState) (d1 d2 : list Completion) :
  Completed s s1 d1 -> Completed s1 s2 d2 -> Completed s s2 (d1 ++ d2).
Proof.
  intros [F1 O1 J1 C1 T1] [F2 O2 J2 C2 T2]. split.
  - congruence.
  - rewrite O2, O1, flat_map_app, app_assoc. done.
  - rewrite J2, J1, flat_map_app, app_assoc. done.
  - rewrite C2, C1, length_app. lia.
  - rewrite T2, T1, List.map_app, app_assoc. done.
Qed.

Lemma complete_job_ok (imagePath : string) (job : AsyncResult) (out : string) (s : CState) :
  ar_value job = Ok out ->
  exists s',
    complete_job imagePath job s = (Ok tt, s') /\
    c_clock s' = c_clock s /\
    Completed s s' [mkCompletion imagePath job (c_clock s)].
Proof.
  intros Hv. destruct s as [fs t so jo jc pr tr].
  unfold complete_job, bind, get, c_event, print, AsyncResult_get, lift, modify,
    progressBar_update, ret. simpl. rewrite Hv.
  destruct (String.eqb out "") eqn:He; simpl.
  - eexists. split; [reflexivity|]. split; [done|].
    split; simpl; unfold job_prints, job_summary, cp_output; simpl;
      rewrite ?Hv, ?He, ?app_nil_r; simpl; rewrite <- ?app_assoc; auto. lia.
  - eexists. split; [reflexivity|]. split; [done|].
    split; simpl; unfold job_prints, job_summary, cp_output; simpl;
      rewrite ?Hv, ?He, ?app_nil_r; simpl; rewrite <- ?app_assoc; auto. lia.
Qed.

(** One pass over the pending jobs, when no worker raised: every job is
    polled once; the jobs found ready are completed, the others are left. *)
Lemma sweep_ok (jobs : list (string * AsyncResult)) (s : CState) :
  Forall job_ok jobs ->
  exists rest s' done,
    sweep jobs s = (Ok rest, s') /\
    c_clock s' = c_clock s + List.length jobs /\
    Completed s s' done /\
    Permutation jobs (List.map cp_entry done ++ rest) /\
    Forall (fun d => ar_done_at (cp_job d) < cp_clock d) done /\
    Forall (fun pj => c_clock s < ar_done_at (snd pj)) rest.
Proof.
  revert s. induction jobs as [|[p job] higher IH]; intros s Hok.
  - exists [], s, []. simpl. unfold ret.
    split; [done|]. split; [lia|]. split; [apply Completed_refl|].
    split; [done|]. by split.
  - apply Forall_cons in Hok as [Hjob Hhigher].
    destruct (IH s Hhigher) as (rest1 & s1 & done1 & Hsw & Hclk & Hcomp & Hperm & Hdone & Hrest).
    simpl. unfold bind at 1. rewrite Hsw.
    unfold bind at 1. unfold ready at 1.
    set (s1' := mkCState (c_fs s1) (S (c_clock s1)) (c_stdout s1) (c_jobOutputs s1)
                         (c_jobsComplete s1) (c_progress s1) (c_trace s1)).
    assert (Completed s s1' done1) as Hcomp'.
    { rewrite <- (app_nil_r done1). eapply Completed_trans; [exact Hcomp|].
      split; simpl; rewrite ?app_nil_r; auto. }
    destruct (Nat.leb (ar_done_at job) (c_clock s1)) eqn:Hready.
    + apply Nat.leb_le in Hready.
      unfold job_ok in Hjob. simpl in Hjob.
      destruct (ar_value job) as [out|] eqn:Hv; [|done].
      destruct (complete_job_ok p job out s1' Hv) as (s2 & Hcj & Hclk2 & Hcomp2).
      unfold bind. rewrite Hcj. unfold ret.
      exists rest1, s2, (done1 ++ [mkCompletion p job (c_clock s1')]).
      split; [done|]. split; [rewrite Hclk2; simpl; lia|].
      split; [by eapply Completed_trans|].
      split.
      { rewrite List.map_app, <- app_assoc. simpl.
        etrans; [|apply Permutation_middle]. by constructor. }
      split.
      { apply Forall_app. split; [done|]. constructor; [simpl; lia|done]. }
      eapply Forall_impl; [exact Hrest|]. done.
    + apply Nat.leb_gt in Hready. unfold ret.
      exists ((p, job) :: rest1), s1', done1.
      split; [done|]. split; [simpl; lia|]. split; [done|].
      split.
      { etrans; [|apply Permutation_middle]. by constructor. }
      split; [done|].
      constructor; [simpl; lia|done].
Qed.

(** The [while] loop ends when no worker raised: with fuel above the last
    completion time, every job is completed once, each when it is ready. *)
Lemma wait_all_ok (fuel T : nat) (jobs : list (string * AsyncResult)) (s : CState) :
  Forall job_ok jobs ->
  Forall (fun pj => ar_done_at (snd pj) <= T) jobs ->
  T - c_clock s < fuel ->
  exists s' done,
    wait_all fuel jobs s = Some (Ok tt, s') /\
    Completed s s' done /\
    Permutation jobs (List.map cp_entry done) /\
    Forall (fun d => ar_done_at (cp_job d) < cp_clock d) done.
Proof.
  revert jobs s. induction fuel as [|fuel IH]; intros jobs s Hok HT Hfuel; [lia|].
  destruct jobs as [|pj jobs].
  { exists s, []. simpl. split; [done|]. split; [apply Completed_refl|]. by split. }
  destruct (sweep_ok (pj :: jobs) s Hok)
    as (rest & s1 & done1 & Hsw & Hclk & Hcomp & Hperm & Hdone & Hrest).
  cbn [wait_all]. rewrite Hsw.
  assert (Forall job_ok rest /\ Forall (fun pj => ar_done_at (snd pj) <= T) rest)
    as [Hok' HT'].
  { rewrite Hperm in Hok, HT.
    apply Forall_app in Hok as [_ ?]. apply Forall_app in HT as [_ ?]. done. }
  destruct rest as [|pj' rest].
  { exists s1, done1. destruct fuel; simpl; rewrite app_nil_r in Hperm; done. }
  destruct (IH (pj' :: rest) s1 Hok' HT') as (s2 & done2 & Hw & Hcomp2 & Hperm2 & Hdone2).
  { apply Forall_cons in Hrest as [Hlt _]. apply Forall_cons in HT' as [Hle _].
    simpl in Hclk. lia. }
  exists s2, (done1 ++ done2).
  split; [done|]. split; [by eapply Completed_trans|].
  split.
  { rewrite List.map_app. rewrite Hperm. by apply Permutation_app_head. }
  by apply Forall_app.
Qed.

Lemma read_imagePaths_inv (dctx : DyldContext) (imgs : list dyld_cache_image_info)
    (i : nat) (s s' : CState) (imagePaths : list string) :
  read_imagePaths dctx imgs i s = (Ok imagePaths, s') ->
  Forall2 (path_read dctx) imgs imagePaths /\
  s' = c_after s (List.map CRead (List.seq i (List.length imgs))).
Proof.
  revert i s s' imagePaths. induction imgs as [|image imgs IH]; intros i s s' paths.
  - simpl. unfold ret, c_after. intros [= <- <-]. split; [constructor|].
    destruct s; simpl. by rewrite app_nil_r.
  - simpl. unfold bind, c_event, modify, lift. simpl.
    destruct (readString dctx (pathFileOffset image)) as [raw|] eqn:Hraw; [|done].
    destruct (decode_utf8 (str_drop_last raw)) as [p|] eqn:Hdec; [|done].
    match goal with |- context [read_imagePaths dctx imgs (S i) ?st] =>
      destruct (read_imagePaths dctx imgs (S i) st) as [[ps|] s1] eqn:Hrec; [|done] end.
    unfold ret. intros [= <- <-].
    apply IH in Hrec as [Hps ->]. split.
    + constructor; [by exists raw|done].
    + unfold c_after. simpl. by rewrite <- app_assoc.
Qed.

Lemma submit_jobs_run (sch : Schedule) (dyldPath outputDir : PurePath) (level : Z)
    (i : nat) (imagePaths : list string) (s : CState) :
  submit_jobs sch dyldPath outputDir (Some level) i imagePaths s
  = (Ok (jobs_for sch dyldPath outputDir level i imagePaths),
     c_after s (submissions dyldPath outputDir level i imagePaths)).
Proof.
  revert i s. induction imagePaths as [|p ps IH]; intros i s.
  - simpl. unfold ret, c_after. destruct s; simpl. by rewrite app_nil_r.
  - simpl. unfold bind, lift, c_event, modify. simpl. rewrite IH. unfold ret.
    unfold jobs_for, submissions, c_after. simpl.
    rewrite Nat.add_0_r, <- app_assoc. simpl.
    f_equal; [f_equal; f_equal|f_equal; f_equal; f_equal];
      apply imap_ext; intros k x _; simpl; by rewrite Nat.add_succ_r.
Qed.

(** [_main] up to the loop, when it gets there. *)
Lemma main_submit_inv (sch : Schedule) (proc : Process) (args : _DyldExtractorArgs)
    (fs : os.FS) (level : Z) (jobs : list (string * AsyncResult)) (s1 : CState) :
  loggingLevel_of (verbosity args) = Some level ->
  main_submit sch proc args (c_init fs) = (Ok jobs, s1) ->
  exists fs1 content imgs imagePaths,
    os.Path_mkdir (outputDir_of args) fs = Ok fs1 /\
    os.open_rb (dyld_path args) fs1 = Ok content /\
    DyldContext_parse content = Ok imgs /\
    Forall2 (path_read (mkDyldContext
                          (mmap.mk (dyld_path args) mmap.ACCESS_READ content 0) imgs))
            imgs imagePaths /\
    jobs = jobs_for sch (dyld_path args) (outputDir_of args) level 0 imagePaths /\
    s1 = c_after (c_init fs1)
           (List.map CRead (List.seq 0 (List.length imgs))
            ++ CPool (main_pool proc)
            :: submissions (dyld_path args) (outputDir_of args) level 0 imagePaths).
Proof.
  intros Hlevel. unfold main_submit, bind, c_on_fs, lift, c_event, modify. simpl.
  destruct (os.Path_mkdir (outputDir_of args) fs) as [fs1|] eqn:Hmk; [|done].
  simpl.
  destruct (os.open_rb (dyld_path args) fs1) as [content|] eqn:Hopen; [|done].
  unfold mmap.mmap, new_DyldContext.
  destruct content as [|b content]; [done|].
  destruct (DyldContext_parse (mmap.data _)) as [imgs|] eqn:Hparse; [|done].
  simpl in Hparse.
  destruct (read_imagePaths _ _ _ _) as [[paths|] s0] eqn:Hread; [|done].
  apply read_imagePaths_inv in Hread as [Hpaths ->].
  rewrite Hlevel, submit_jobs_run. intros [= <- <-].
  exists fs1, (b :: content), imgs, paths.
  repeat (split; [done|]).
  unfold c_after, c_init. simpl. by rewrite <- app_assoc.
Qed.

End Coordinator.

(** ** The coordinator as a whole *)

Section CoordinatorRun.
Context `{Imports}.

Lemma last_done_at_bound (jobs : list (string * AsyncResult)) :
  Forall (fun pj => ar_done_at (snd pj) <= last_done_at jobs) jobs.
Proof.
  unfold last_done_at.
  pose proof (proj1 (List.list_max_le
                       (List.map (fun pj => ar_done_at (snd pj)) jobs) _) (le_n _)) as Hle.
  apply Forall_map in Hle. exact Hle.
Qed.

(** A run of [_main] in which every worker returns: with enough fuel the
    loop ends, every job has been completed once and when ready, and the
    prints are those of the completions, in their order, then the summary. *)
Lemma main_run (sch : Schedule) (proc : Process) (args : _DyldExtractorArgs)
    (fs : os.FS) (jobs : list (string * AsyncResult)) (s1 : CState) (fuel : nat) :
  main_submit sch proc args (c_init fs) = (Ok jobs, s1) ->
  c_stdout s1 = [] -> c_jobOutputs s1 = [] -> c_clock s1 = 0 ->
  Forall job_ok jobs ->
  last_done_at jobs < fuel ->
  exists s' done,
    _main sch fuel proc args fs = Some (Ok tt, s') /\
    c_fs s' = c_fs s1 /\
    c_trace s' = c_trace s1 ++ List.map cp_event done /\
    Permutation (List.map cp_entry done) jobs /\
    Forall (fun d => ar_done_at (cp_job d) < cp_clock d) done /\
    c_stdout s' =
      List.flat_map (fun d => job_prints (cp_path d) (cp_output d)) done
      ++ final_prints (List.flat_map (fun d => job_summary (cp_path d) (cp_output d)) done).
Proof.
  intros Hsub Hso Hjo Hclk Hok Hfuel.
  destruct (wait_all_ok fuel (last_done_at jobs) jobs s1 Hok (last_done_at_bound jobs))
    as (s2 & done & Hw & [F O J C T] & Hperm & Hdone); [lia|].
  unfold _main. change (mkCState fs 0 [] [] 0 [] []) with (c_init fs).
  rewrite Hsub, Hw.
  eexists _, done. split; [reflexivity|].
  unfold main_report, bind, get, progressBar_update, print, modify. simpl.
  rewrite O, J, Hso, Hjo. simpl.
  split; [done|]. split; [done|]. split; [by symmetry|]. split; [done|].
  rewrite <- !app_assoc. done.
Qed.

Lemma main_submit_fresh (sch : Schedule) (proc : Process) (args : _DyldExtractorArgs)
    (fs : os.FS) (level : Z) (jobs : list (string * AsyncResult)) (s1 : CState) :
  loggingLevel_of (verbosity args) = Some level ->
  main_submit sch proc args (c_init fs) = (Ok jobs, s1) ->
  c_stdout s1 = [] /\ c_jobOutputs s1 = [] /\ c_clock s1 = 0.
Proof.
  intros Hl Hs.
  destruct (main_submit_inv _ _ _ _ _ _ _ Hl Hs) as (? & ? & ? & ? & _ & _ & _ & _ & _ & ->).
  done.
Qed.

End CoordinatorRun.

(** ** The claims on the coordinator *)

(** C8. [_main] reads the paths of all images of the cache in one pass over
    a read-only mapping, writing nothing, before it creates the pool and
    submits anything; it then submits one job per image, the job of the
    image at index [i] of the image directory getting the index [i] and that
    image's path.  When every worker returns, the loop ends once the fuel
    covers the last completion: every job is completed exactly once, each at
    a poll that found it ready, whichever jobs are still pending. *)
Theorem main_enumerates_then_submits_each_image `{Imports}
    (sch : Schedule) (proc : Process) (args : _DyldExtractorArgs) (fs : os.FS)
    (level : Z) (jobs : list (string * AsyncResult)) (s1 : CState) :
  loggingLevel_of (verbosity args) = Some level ->
  main_submit sch proc args (c_init fs) = (Ok jobs, s1) ->
  Forall job_ok jobs ->
  exists content imgs imagePaths,
    os.Path_mkdir (outputDir_of args) fs = Ok (c_fs s1) /\
    os.open_rb (dyld_path args) (c_fs s1) = Ok content /\
    DyldContext_parse content = Ok imgs /\
    Forall2 (path_read (mkDyldContext
                          (mmap.mk (dyld_path args) mmap.ACCESS_READ content 0) imgs))
            imgs imagePaths /\
    c_trace s1 =
      List.map CRead (List.seq 0 (List.length imgs))
      ++ CPool (main_pool proc)
      :: imap (fun i p => CSubmit (dyld_path args) (outputDir_of args) (Z.of_nat i) p level)
              imagePaths /\
    jobs = imap (fun i p => (p, apply_async sch i (dyld_path args) (outputDir_of args) p level))
                imagePaths /\
    exists fuel0, forall fuel, fuel0 <= fuel ->
      exists s' done,
        _main sch fuel proc args fs = Some (Ok tt, s') /\
        c_fs s' = c_fs s1 /\
        c_trace s' = c_trace s1 ++ List.map cp_event done /\
        Permutation (List.map cp_entry done) jobs /\
        Forall (fun d => ar_done_at (cp_job d) < cp_clock d) done.
Proof.
  intros Hl Hs Hok.
  destruct (main_submit_fresh _ _ _ _ _ _ _ Hl Hs) as (Hso & Hjo & Hclk).
  destruct (main_submit_inv _ _ _ _ _ _ _ Hl Hs)
    as (fs1 & content & imgs & paths & Hmk & Hopen & Hparse & Hpaths & Hjobs & Hs1).
  exists content, imgs, paths.
  assert (c_fs s1 = fs1) as Hfs by (by rewrite Hs1).
  rewrite Hfs. repeat (split; [done|]).
  split; [by rewrite Hs1|]. split; [done|].
  exists (S (last_done_at jobs)). intros fuel Hfuel.
  destruct (main_run sch proc args fs jobs s1 fuel Hs Hso Hjo Hclk Hok)
    as (s' & done & Hm & Hf & Ht & Hp & Hd & _); [lia|].
  exists s', done. rewrite <- Hfs. done.
Qed.


(** ** Events of the coordinator, however a run ends *)

Section CoordinatorEvents.
Context `{Imports}.

Lemma grows_bind (P : CEvent -> Prop) {A B} (m : M CState A) (k : A -> M CState B) :
  Grows P m -> (forall a, Grows P (k a)) -> Grows P (bind m k).
Proof.
  intros Hm Hk s. destruct (Hm s) as (e1 & T1 & F1). unfold bind.
  destruct (m s) as [[a|e] s1]; simpl in *.
  - destruct (Hk a s1) as (e2 & T2 & F2). exists (e1 ++ e2).
    rewrite T2, T1, app_assoc. split; [done|]. by apply Forall_app.
  - by exists e1.
Qed.

Lemma grows_quiet (P : CEvent -> Prop) {A} (m : M CState A) :
  (forall s, c_trace (snd (m s)) = c_trace s) -> Grows P m.
Proof. intros Hq s. exists []. by rewrite Hq, app_nil_r. Qed.

Lemma grows_event (P : CEvent -> Prop) (ev : CEvent) : P ev -> Grows P (c_event ev).
Proof. intros Hp s. exists [ev]. split; [done|]. by constructor. Qed.

Lemma grows_weaken (P Q : CEvent -> Prop) {A} (m : M CState A) :
  (forall ev, P ev -> Q ev) -> Grows P m -> Grows Q m.
Proof.
  intros HPQ Hm s. destruct (Hm s) as (evs & T & F). exists evs.
  split; [done|]. by eapply Forall_impl.
Qed.

Lemma grows_read_imagePaths (dctx : DyldContext) (imgs : list dyld_cache_image_info)
    (i : nat) : Grows no_pool (read_imagePaths dctx imgs i).
Proof.
  revert i. induction imgs as [|image imgs IH]; intros i; simpl.
  - by apply grows_quiet.
  - apply grows_bind; [by apply grows_event|]. intros _.
    apply grows_bind; [by apply grows_quiet|]. intros raw.
    apply grows_bind; [by apply grows_quiet|]. intros p.
    apply grows_bind; [apply IH|]. intros ps. by apply grows_quiet.
Qed.

Lemma grows_submit_jobs (sch : Schedule) (dyldPath outputDir : PurePath)
    (loggingLevel : option Z) (i : nat) (imagePaths : list string) :
  Grows no_pool (submit_jobs sch dyldPath outputDir loggingLevel i imagePaths).
Proof.
  revert i. induction imagePaths as [|p ps IH]; intros i; simpl.
  - by apply grows_quiet.
  - apply grows_bind; [by apply grows_quiet|]. intros level.
    apply grows_bind; [by apply grows_event|]. intros _.
    apply grows_bind; [apply IH|]. intros jobs. by apply grows_quiet.
Qed.

Lemma grows_complete_job (imagePath : string) (job : AsyncResult) :
  Grows no_pool (complete_job imagePath job).
Proof.
  unfold complete_job.
  apply grows_bind; [by apply grows_quiet|]. intros s0.
  apply grows_bind; [by apply grows_event|]. intros _.
  apply grows_bind; [by apply grows_quiet|]. intros _.
  apply grows_bind; [by apply grows_quiet|]. intros out.
  apply grows_bind.
  { destruct (String.eqb out ""); [by apply grows_quiet|].
    apply grows_bind; [by apply grows_quiet|]. intros _. by apply grows_quiet. }
  intros _.
  apply grows_bind; [by apply grows_quiet|]. intros _.
  apply grows_bind; [by apply grows_quiet|]. intros s. by apply grows_quiet.
Qed.

Lemma grows_sweep (jobs : list (string * AsyncResult)) : Grows no_pool (sweep jobs).
Proof.
  induction jobs as [|[p job] higher IH]; simpl.
  - by apply grows_quiet.
  - apply grows_bind; [apply IH|]. intros rest.
    apply grows_bind; [by apply grows_quiet|]. intros [|].
    + apply grows_bind; [apply grows_complete_job|]. intros _. by apply grows_quiet.
    + by apply grows_quiet.
Qed.

Lemma wait_all_grows (fuel : nat) (jobs : list (string * AsyncResult))
    (s s' : CState) (r : Result unit) :
  wait_all fuel jobs s = Some (r, s') ->
  exists evs, c_trace s' = c_trace s ++ evs /\ Forall no_pool evs.
Proof.
  revert jobs s. induction fuel as [|fuel IH]; intros jobs s.
  - destruct jobs; [|done]. intros [= <- <-]. exists []. by rewrite app_nil_r.
  - destruct jobs as [|pj jobs].
    { intros [= <- <-]. exists []. by rewrite app_nil_r. }
    cbn [wait_all].
    destruct (grows_sweep (pj :: jobs) s) as (e1 & T1 & F1).
    destruct (sweep (pj :: jobs) s) as [[rest|e] s1]; simpl in T1.
    + intros (e2 & T2 & F2)%IH. exists (e1 ++ e2).
      rewrite T2, T1, app_assoc. split; [done|]. by apply Forall_app.
    + intros [= <- <-]. by exists e1.
Qed.

Lemma no_pool_pool_is (proc : Process) (ev : CEvent) : no_pool ev -> pool_is proc ev.
Proof. intros Hn pool ->. done. Qed.

Lemma grows_main_submit (sch : Schedule) (proc : Process) (args : _DyldExtractorArgs) :
  Grows (pool_is proc) (main_submit sch proc args).
Proof.
  unfold main_submit.
  apply grows_bind.
  { apply grows_quiet. intros s. unfold c_on_fs. by destruct (os.Path_mkdir _ _). }
  intros _.
  apply grows_bind; [by apply grows_quiet|]. intros f.
  apply grows_bind; [by apply grows_quiet|]. intros dyldFile.
  apply grows_bind; [by apply grows_quiet|]. intros dctx.
  apply grows_bind.
  { eapply grows_weaken; [apply no_pool_pool_is|apply grows_read_imagePaths]. }
  intros paths.
  apply grows_bind.
  { apply grows_event. by intros pool [= <-]. }
  intros _. eapply grows_weaken; [apply no_pool_pool_is|apply grows_submit_jobs].
Qed.

(** A run of [_main] that reaches the submissions has created the pool. *)
Lemma main_submit_pool (sch : Schedule) (proc : Process) (args : _DyldExtractorArgs)
    (s s1 : CState) (jobs : list (string * AsyncResult)) :
  main_submit sch proc args s = (Ok jobs, s1) ->
  In (CPool (main_pool proc)) (c_trace s1).
Proof.
  unfold main_submit, bind at 1.
  destruct (c_on_fs _ s) as [[[]|] sa]; [|done].
  unfold bind at 1. destruct (os.open_rb _ _); [|done].
  unfold bind at 1, lift at 1. destruct (mmap.mmap _ _ _); [|done].
  unfold bind at 1, lift at 1. destruct (new_DyldContext _); [|done].
  unfold bind at 1. destruct (read_imagePaths _ _ _ _) as [[paths|] sb]; [|done].
  unfold bind at 1, c_event at 1, modify at 1.
  match goal with |- submit_jobs ?a ?b ?c ?d ?e ?f ?st = _ -> _ =>
    destruct (grows_submit_jobs a b c d e f st) as (evs & T & _) end.
  intros Hsub. rewrite Hsub in T. simpl in T. rewrite T.
  apply in_or_app. left. apply in_or_app. right. by left.
Qed.

End CoordinatorEvents.

(** C7. [_workerInitializer] sets a process to ignore SIGINT and changes no
    other handler.  However a run of [_main] ends, every pool it created was
    created with this initializer: each of its [cpu_count] workers ignores
    SIGINT and handles every other signal as the coordinator does.  A run
    that reaches the end has created the pool.  In a coordinator that is a
    freshly started interpreter SIGINT still raises [KeyboardInterrupt]. *)
Theorem pool_workers_ignore_SIGINT `{Imports}
    (sch : Schedule) (fuel : nat) (proc : Process) (args : _DyldExtractorArgs)
    (fs : os.FS) (r : Result unit) (s' : CState) :
  _main sch fuel proc args fs = Some (r, s') ->
  (forall pool, In (CPool pool) (c_trace s') ->
     pool = new_Pool proc cpu_count (Some _workerInitializer) /\
     List.length (workers pool) = cpu_count /\
     forall w, In w (workers pool) ->
       handler_of w SIGINT = SIG_IGN /\
       forall sig, sig <> SIGINT -> handler_of w sig = handler_of proc sig)
  /\ (r = Ok tt -> In (CPool (new_Pool proc cpu_count (Some _workerInitializer))) (c_trace s'))
  /\ handler_of (_workerInitializer proc) SIGINT = SIG_IGN
  /\ handler_of python_process SIGINT = default_int_handler.
Proof.
  intros Hmain.
  assert (Forall (pool_is proc) (c_trace s') /\
          (r = Ok tt -> In (CPool (main_pool proc)) (c_trace s'))) as [Hall Hpool].
  { unfold _main in Hmain.
    destruct (grows_main_submit sch proc args (mkCState fs 0 [] [] 0 [] []))
      as (e1 & T1 & F1).
    destruct (main_submit sch proc args (mkCState fs 0 [] [] 0 [] []))
      as [[jobs|e] s1] eqn:Hsub; simpl in T1.
    2:{ injection Hmain as <- <-. rewrite T1. done. }
    apply main_submit_pool in Hsub.
    destruct (wait_all fuel jobs s1) as [[r2 s2]|] eqn:Hw; [|done].
    apply wait_all_grows in Hw as (e2 & T2 & F2).
    assert (Forall (pool_is proc) (c_trace s2)) as Hs2.
    { rewrite T2, T1. apply Forall_app. split; [done|].
      eapply Forall_impl; [exact F2|]. apply no_pool_pool_is. }
    assert (In (CPool (main_pool proc)) (c_trace s2)) as Hin2.
    { rewrite T2. apply in_or_app. by left. }
    destruct r2 as [[]|e].
    - injection Hmain as <- <-. done.
    - injection Hmain as <- <-. done. }
  split; [|split; [exact Hpool|done]].
  intros pool Hin.
  rewrite List.Forall_forall in Hall. specialize (Hall _ Hin pool eq_refl). subst pool.
  split; [done|]. unfold main_pool, new_Pool. simpl.
  split; [apply repeat_length|].
  intros w ->%repeat_spec. split; [done|].
  intros sig Hsig. unfold _workerInitializer, signal. simpl.
  by destruct (decide (sig = SIGINT)).
Qed.

Lemma pool_workers_ignore_SIGINT_witness :
  exists s',
    @_main Sample.imports Sample.at_once 3 python_process Sample.args0 Sample.fs0
      = Some (Ok tt, s') /\
    In (CPool (new_Pool python_process 2 (Some _workerInitializer))) (c_trace s') /\
    forall w, In w (workers (new_Pool python_process 2 (Some _workerInitializer))) ->
      handler_of w SIGINT = SIG_IGN.
Proof.
  destruct (@_main Sample.imports Sample.at_once 3 python_process Sample.args0 Sample.fs0)
    as [[r s']|] eqn:Hmain; [|vm_compute in Hmain; discriminate].
  assert (r = Ok tt) as ->.
  { vm_compute in Hmain. injection Hmain as <- _. reflexivity. }
  exists s'. split; [reflexivity|].
  destruct (@pool_workers_ignore_SIGINT Sample.imports Sample.at_once 3 python_process
              Sample.args0 Sample.fs0 (Ok tt) s' Hmain) as (Hall & Hin & _).
  split; [exact (Hin eq_refl)|].
  intros w Hw. destruct (Hall _ (Hin eq_refl)) as (_ & _ & Hws).
  exact (proj1 (Hws w Hw)).
Defined.

Lemma main_enumerates_then_submits_each_image_witness :
  exists fuel s',
    @_main Sample.imports Sample.at_once fuel python_process Sample.args0 Sample.fs0
      = Some (Ok tt, s') /\
    Permutation (completed_numbers (c_trace s')) [0; 1].
Proof.
  destruct (@main_enumerates_then_submits_each_image Sample.imports Sample.at_once
              python_process Sample.args0 Sample.fs0 WARNING
              (Sample.submitted_jobs Sample.imports)
              (snd (Sample.submitted Sample.imports)))
    as (content & imgs & paths & _ & _ & _ & _ & Htr & Hjobs & fuel0 & Hrun).
  - reflexivity.
  - vm_compute. reflexivity.
  - vm_compute. repeat constructor.
  - destruct (Hrun fuel0 (le_n _)) as (s' & done & Hmain & _ & Htr' & Hperm & _).
    exists fuel0, s'. split; [exact Hmain|].
    rewrite Htr'.
    assert (forall evs done', (forall ev, In ev evs -> no_pool ev \/ exists p, ev = CPool p) ->
              completed_numbers evs = [] ->
              completed_numbers (evs ++ List.map cp_event done')
              = List.map (fun d => ar_number (cp_job d)) done') as Hnum.
    { intros evs done' _ Hnil. induction evs as [|ev evs IH]; simpl.
      - induction done' as [|d done' IHd]; simpl; [reflexivity|]. by rewrite IHd.
      - destruct ev; simpl in Hnil |- *; auto. discriminate. }
    rewrite Hnum.
    + change (List.map (fun d => ar_number (cp_job d)) done)
        with (List.map (fun d => ar_number (snd (cp_entry d))) done).
      rewrite <- (List.map_map cp_entry (fun pj => ar_number (snd pj))).
      rewrite Hperm. vm_compute. constructor. constructor. constructor.
    + intros ev _. destruct ev; simpl; eauto.
    + vm_compute. reflexivity.
Defined.


(** The order of completion follows readiness, not submission: when both
    jobs are ready at once the job submitted last is completed first (the
    pending jobs are polled from the highest index down); when the second
    job is late the first is completed first. *)
Example completion_order_follows_readiness :
  (exists s', @_main Sample.imports Sample.at_once 9 python_process Sample.args0 Sample.fs0
              = Some (Ok tt, s') /\ completed_numbers (c_trace s') = [1; 0])
  /\ (exists s', @_main Sample.imports Sample.second_late 9 python_process Sample.args0
                   Sample.fs0
                 = Some (Ok tt, s') /\ completed_numbers (c_trace s') = [0; 1]).
Proof.
  split.
  - destruct (@_main Sample.imports Sample.at_once 9 python_process Sample.args0 Sample.fs0)
      as [[[[]|] s']|] eqn:Hm; try (vm_compute in Hm; discriminate).
    exists s'. split; [reflexivity|].
    vm_compute in Hm. injection Hm as <-. reflexivity.
  - destruct (@_main Sample.imports Sample.second_late 9 python_process Sample.args0 Sample.fs0)
      as [[[[]|] s']|] eqn:Hm; try (vm_compute in Hm; discriminate).
    exists s'. split; [reflexivity|].
    vm_compute in Hm. injection Hm as <-. reflexivity.
Qed.

(** ** More on the worker *)

Section WorkerMore.
Context `{Imports}.

Lemma str_app_assoc (a b c : string) : ((a ++ b) ++ c = a ++ (b ++ c))%string.
Proof.
  induction a as [|x a IH]; [reflexivity|].
  change (String x ((a ++ b) ++ c) = String x (a ++ (b ++ c)))%string.
  by f_equal.
Qed.

Lemma str_app_nil_r (a : string) : (a ++ "" = a)%string.
Proof.
  induction a as [|x a IH]; [reflexivity|].
  change (String x (a ++ "") = String x a)%string. by f_equal.
Qed.

Lemma concat_empty_cons (x : string) (l : list string) :
  String.concat "" (x :: l) = (x ++ String.concat "" l)%string.
Proof. destruct l; simpl; [by rewrite str_app_nil_r|done]. Qed.

Lemma fold_handle_render (lg : Logger) (rs : list LogRecord) (stream : string) :
  List.fold_left (handle lg) rs stream
  = (stream ++ render (List.filter (enabled lg) rs))%string.
Proof.
  revert stream. induction rs as [|r rs IH]; intros stream.
  - simpl. by rewrite str_app_nil_r.
  - cbn [List.fold_left List.filter]. rewrite IH. unfold handle, enabled at 2.
    destruct (isEnabledFor lg (levelno r)); [|done].
    unfold render. cbn [List.map]. rewrite concat_empty_cons.
    unfold emit, nl. by rewrite !str_app_assoc.
Qed.

Lemma mkdir_Exception (p : PurePath) (fs : os.FS) (e : PyExc) :
  os.mkdir p fs = Raise e -> isinstance_Exception (exc_class e) = true.
Proof.
  unfold os.mkdir. intros Hm. repeat (case_match; simplify_eq); done.
Qed.

Lemma Path_mkdir_fuel_Exception (fuel : nat) (p : PurePath) (fs : os.FS) (e : PyExc) :
  os.Path_mkdir_fuel fuel p fs = Raise e -> isinstance_Exception (exc_class e) = true.
Proof.
  revert p fs e. induction fuel as [|fuel IH]; intros p fs e; simpl.
  - destruct (os.mkdir p fs) as [fs1|e0] eqn:Hm; [done|].
    apply mkdir_Exception in Hm.
    destruct (exc_class e0) eqn:Hc; try case_decide; destruct (os.is_dir fs p);
      intros; simplify_eq; try done; by rewrite ?Hc.
  - destruct (os.mkdir p fs) as [fs1|e0] eqn:Hm; [done|].
    apply mkdir_Exception in Hm.
    assert ((if os.is_dir fs p then Ok fs else Raise e0) = Raise e ->
            isinstance_Exception (exc_class e) = true) as Hshort.
    { destruct (os.is_dir fs p); [done|]. by intros [= <-]. }
    destruct (exc_class e0) eqn:Hc; try (by apply Hshort).
    case_decide; [by intros [= <-]; rewrite Hc|].
    destruct (os.Path_mkdir_fuel fuel (parent p) fs) as [fs1|e1] eqn:Hrec.
    + unfold os.Path_mkdir_here.
      destruct (os.mkdir p fs1) as [fs2|e2] eqn:Hm2; [done|].
      apply mkdir_Exception in Hm2.
      destruct (exc_class e2) eqn:Hc2; destruct (os.is_dir fs1 p);
        intros; simplify_eq; try done; by rewrite ?Hc2.
    + intros [= <-]. by eapply IH.
Qed.

Lemma open_wb_inv (p : PurePath) (fs fs' : os.FS) :
  os.open_wb p fs = Ok fs' ->
  os.stat fs (parent p) = Some os.Dir /\ fs !! p <> Some os.Dir /\
  fs' = <[p := os.File []]> fs.
Proof.
  unfold os.open_wb. intros Ho. repeat (case_match; simplify_eq); done.
Qed.

Lemma open_wb_Exception (p : PurePath) (fs : os.FS) (e : PyExc) :
  os.open_wb p fs = Raise e -> isinstance_Exception (exc_class e) = true.
Proof.
  unfold os.open_wb. intros Ho. repeat (case_match; simplify_eq); done.
Qed.

Lemma open_wb_dir (p : PurePath) (fs : os.FS) :
  fs !! p = Some os.Dir -> is_Ok (os.open_wb p fs) = false.
Proof.
  unfold os.open_wb. intros Hd. rewrite Hd. repeat case_match; done.
Qed.

(** Every exception of the block under [# write the file] is an
    [Exception]. *)
Lemma WriteOutcome_Exception (outputPath : PurePath) (ctx : ExtractionContext)
    (fs fs' : os.FS) (e : PyExc) (evs : list Event) :
  WriteOutcome outputPath ctx fs (Raise e) fs' evs ->
  isinstance_Exception (exc_class e) = true.
Proof.
  intros Hwo. inversion Hwo; subst.
  - by eapply Path_mkdir_fuel_Exception.
  - by eapply open_wb_Exception.
  - match goal with Hor : _ \/ _ |- _ => destruct Hor as [Hk|(sc & _ & _ & Hc)] end.
    + unfold dict_getitem in Hk. destruct (_ !! _); by simplify_eq.
    + by rewrite Hc.
Qed.

(** Creating or truncating a file in a directory keeps the tree a tree,
    provided the name is not a directory's. *)
Lemma tree_ok_insert_file (p : PurePath) (c : bytes) (fs : os.FS) :
  os.tree_ok fs -> os.stat fs (parent p) = Some os.Dir ->
  fs !! p <> Some os.Dir ->
  os.tree_ok (<[p := os.File c]> fs).
Proof.
  intros Hok Hpar Hnd q n Hq.
  assert (os.stat fs (parent q) = Some os.Dir) as Hpq.
  { destruct (decide (q = p)) as [->|Hne]; [done|].
    rewrite lookup_insert_ne in Hq by done. by eapply Hok. }
  unfold os.stat in *.
  destruct (parts (parent q)) eqn:Hparts; [done|].
  destruct (decide (parent q = p)) as [Heq|Hne].
  - rewrite Heq in Hpq. done.
  - by rewrite lookup_insert_ne.
Qed.

Lemma str_app_nil_inv (a b : string) : (a ++ b)%string = "" -> b = "".
Proof. by destruct a. Qed.

Lemma Ok_unwrap {A} (r : Result A) (d : A) :
  is_Ok r = true -> r = Ok (match r with Ok a => a | Raise _ => d end).
Proof. by destruct r. Qed.

End WorkerMore.

(** X1. When the five converters return but leave no [__LINKEDIT] segment,
    the lookup raises [KeyError] after the output file has been opened: the
    error is caught and handed to the logger, the worker returns its log
    text, nothing is written, and the output path is left holding an empty
    file. *)
Theorem extractImage_missing_linkedit `{Imports}
    (dyldPath outputDir : PurePath) (imageIndex : Z) (imagePath : string)
    (loggingLevel : Z) (fs fs1 : os.FS) (s0 : WState)
    (outputPath : PurePath) (ctx ctx5 : ExtractionContext) :
  extract_setup dyldPath outputDir imageIndex imagePath loggingLevel (mkWState fs "" [])
    = (Ok (outputPath, ctx), s0) ->
  p_out (run_converters converters ctx) = Ok ctx5 ->
  os.Path_mkdir (parent outputPath) fs = Ok fs1 ->
  is_Ok (os.open_wb outputPath fs1) = true ->
  segments (machoCtx ctx5) !! "__LINKEDIT" = None ->
  let text := log_text (logger ctx) (p_log (run_converters converters ctx)) in
  let blob := handle (logger ctx) text (exception_record (mkExc KeyError "__LINKEDIT")) in
  run_extractImage dyldPath outputDir imageIndex imagePath loggingLevel fs
  = (Ok blob,
     mkWState (<[outputPath := os.File []]> fs1) blob
       ([EvCall slide_info; EvCall linkedit_optimizer; EvCall stub_fixer;
         EvCall objc_fixer; EvCall macho_offset;
         EvMkdir (parent outputPath); EvOpen outputPath])).
Proof.
  intros Hs Hout Hmk Hop Hseg. cbv zeta.
  pose proof (extract_setup_inv _ _ _ _ _ _ _ _ _ Hs)
    as (rel & content & _ & _ & Hs0 & _).
  cbn [w_fs w_trace] in Hs0. subst s0.
  unfold run_extractImage. rewrite (extractImage_run _ _ _ _ _ _ _ _ _ Hs).
  rewrite try_body_run. cbv zeta. rewrite Hout.
  rewrite (run_converters_ok_calls _ _ _ Hout).
  destruct (os.open_wb outputPath fs1) as [fs2|] eqn:Hopen; [|done].
  apply open_wb_inv in Hopen as Hinv. destruct Hinv as (_ & _ & ->).
  unfold write_file, bind, event, modify, on_fs, lift, dict_getitem.
  cbn [w_fs w_stream w_trace fst snd]. rewrite Hmk. cbn [w_fs w_stream w_trace].
  rewrite Hopen, Hseg. reflexivity.
Qed.

Lemma extractImage_missing_linkedit_witness :
  let run := @run_extractImage Edge.imports_nolinkedit Sample.cache_path (Path "binaries") 0
               "/usr/lib/libA.dylib" WARNING Sample.fs0 in
  fst run = Ok (String.concat nl ["__LINKEDIT"; ""])
  /\ w_fs (snd run) !! Sample.out_A = Some (os.File []).
Proof.
  cbv zeta.
  rewrite (@extractImage_missing_linkedit Edge.imports_nolinkedit
             Sample.cache_path (Path "binaries") 0 "/usr/lib/libA.dylib" WARNING
             Sample.fs0 Edge.made_dirs
             (mkWState Sample.fs0 "" []) Sample.out_A (Sample.ctx_A WARNING)
             (mkExtractionContext (dyldCtx (Sample.ctx_A WARNING))
                (mkMachOContext (file (machoCtx (Sample.ctx_A WARNING))) (Some 0%N) ∅)
                mk_DummyProgressBar (logger (Sample.ctx_A WARNING)))).
  - split; [vm_compute; reflexivity|]. cbn [snd w_fs]. apply lookup_insert_eq.
  - vm_compute. reflexivity.
  - vm_compute. reflexivity.
  - apply Ok_unwrap. vm_compute. reflexivity.
  - vm_compute. reflexivity.
  - vm_compute. reflexivity.
Defined.



(** X3. Once the contexts are built, [_extractImage] raises only what a
    converter raised that is not an [Exception]: when every exception of the
    converters is an [Exception], the worker returns its log text, whatever
    happens while the file is written (a name taken by a file or a
    directory, a missing [__LINKEDIT], a size that does not fit). *)
Theorem extractImage_returns_unless_base_exception `{Imports}
    (dyldPath outputDir : PurePath) (imageIndex : Z) (imagePath : string)
    (loggingLevel : Z) (fs : os.FS) (s0 : WState)
    (outputPath : PurePath) (ctx : ExtractionContext) :
  extract_setup dyldPath outputDir imageIndex imagePath loggingLevel (mkWState fs "" [])
    = (Ok (outputPath, ctx), s0) ->
  (forall e, p_out (run_converters converters ctx) = Raise e ->
             isinstance_Exception (exc_class e) = true) ->
  exists blob,
    fst (run_extractImage dyldPath outputDir imageIndex imagePath loggingLevel fs) = Ok blob
    /\ forall sch i,
         imageIndex = Z.of_nat i -> fs_of sch i = fs ->
         job_ok (imagePath, apply_async sch i dyldPath outputDir imagePath loggingLevel).
Proof.
  intros Hs Hexc.
  assert (exists blob,
            fst (run_extractImage dyldPath outputDir imageIndex imagePath loggingLevel fs)
            = Ok blob) as [blob Hb].
  { pose proof (run_extractImage_cases _ _ _ _ _ _ _ _ _ Hs) as Hrun.
    cbv zeta in Hrun.
    destruct (p_out (run_converters converters ctx)) as [ctx5|e] eqn:Hout.
    - destruct Hrun as (wr & fs' & evs & Hwo & ->). unfold after_try.
      destruct wr as [[]|e]; [by eexists|].
      rewrite (WriteOutcome_Exception _ _ _ _ _ _ Hwo). by eexists.
    - rewrite Hrun. unfold after_try. rewrite (Hexc e eq_refl). by eexists. }
  exists blob. split; [done|].
  intros sch i -> <-. unfold job_ok, apply_async. simpl. by rewrite Hb.
Qed.

Lemma extractImage_returns_unless_base_exception_witness :
  exists blob,
    fst (@run_extractImage Sample.imports_failing Sample.cache_path (Path "binaries") 0
           "/usr/lib/libA.dylib" WARNING Sample.fs0) = Ok blob.
Proof.
  destruct (@extractImage_returns_unless_base_exception Sample.imports_failing
              Sample.cache_path (Path "binaries") 0 "/usr/lib/libA.dylib" WARNING
              Sample.fs0 (mkWState Sample.fs0 "" []) Sample.out_A (Sample.ctx_A WARNING))
    as (blob & Hb & _).
  - vm_compute. reflexivity.
  - intros e He. vm_compute in He. injection He as <-. reflexivity.
  - exists blob. exact Hb.
Defined.

(** The returned text, in terms of the logger the context carries. *)
Lemma run_extractImage_render `{Imports}
    (dyldPath outputDir : PurePath) (imageIndex : Z) (imagePath : string)
    (loggingLevel : Z) (fs : os.FS) (s0 : WState)
    (outputPath : PurePath) (ctx : ExtractionContext) :
  extract_setup dyldPath outputDir imageIndex imagePath loggingLevel (mkWState fs "" [])
    = (Ok (outputPath, ctx), s0) ->
  let calls := p_log (run_converters converters ctx) in
  let run := run_extractImage dyldPath outputDir imageIndex imagePath loggingLevel fs in
  match fst (try_body (logger ctx) outputPath ctx s0) with
  | Ok _ => fst run = Ok (render (List.filter (enabled (logger ctx)) calls))
  | Raise e =>
      if isinstance_Exception (exc_class e)
      then fst run
           = Ok (render (List.filter (enabled (logger ctx)) (calls ++ [exception_record e])))
      else fst run = Raise e
  end.
Proof.
  intros Hs. cbv zeta.
  pose proof (extract_setup_inv _ _ _ _ _ _ _ _ _ Hs)
    as (rel & content & _ & _ & Hs0 & _).
  cbn [w_fs w_trace] in Hs0. subst s0.
  unfold run_extractImage. rewrite (extractImage_run _ _ _ _ _ _ _ _ _ Hs).
  rewrite try_body_run. cbv zeta. cbn [w_fs w_stream w_trace app].
  assert (forall wr s, w_stream s
            = List.fold_left (handle (logger ctx)) (p_log (run_converters converters ctx)) "" ->
          match wr with
          | Ok _ => fst (after_try (logger ctx) wr s)
                    = Ok (render (List.filter (enabled (logger ctx))
                                    (p_log (run_converters converters ctx))))
          | Raise e =>
              if isinstance_Exception (exc_class e)
              then fst (after_try (logger ctx) wr s)
                   = Ok (render (List.filter (enabled (logger ctx))
                           (p_log (run_converters converters ctx) ++ [exception_record e])))
              else fst (after_try (logger ctx) wr s) = Raise e
          end) as Hafter.
  { intros wr s Hst. unfold after_try. destruct wr as [[]|e]; simpl.
    - by rewrite Hst, fold_handle_render.
    - destruct (isinstance_Exception (exc_class e)); simpl; [|done].
      rewrite Hst.
      change (handle (logger ctx) ?st ?r) with (List.fold_left (handle (logger ctx)) [r] st).
      by rewrite <- fold_left_app, fold_handle_render. }
  destruct (p_out (run_converters converters ctx)) as [ctx5|e].
  - match goal with |- context [write_file outputPath ctx5 ?s] =>
      destruct (write_file_outcome outputPath ctx5 s) as (wr & fs' & evs & -> & _) end.
    cbn [fst snd]. by apply Hafter.
  - cbn [fst snd]. by apply (Hafter (Raise e)).
Qed.

(** X4. The text a worker returns is the formatted records, each followed
    by a newline, of exactly the log calls at or above the logger's level,
    in the order they were made: those of the converters when the [try]
    block ends without an exception, and those followed by the record of
    the exception when an [Exception] was caught. *)
Theorem extractImage_log_text `{Imports}
    (dyldPath outputDir : PurePath) (imageIndex : Z) (imagePath : string)
    (loggingLevel : Z) (fs : os.FS) (s0 : WState)
    (outputPath : PurePath) (ctx : ExtractionContext) :
  extract_setup dyldPath outputDir imageIndex imagePath loggingLevel (mkWState fs "" [])
    = (Ok (outputPath, ctx), s0) ->
  let lg := mkLogger ("Worker: " ++ str_path outputPath) loggingLevel in
  let calls := p_log (run_converters converters ctx) in
  let run := run_extractImage dyldPath outputDir imageIndex imagePath loggingLevel fs in
  match fst (try_body (logger ctx) outputPath ctx s0) with
  | Ok _ => fst run = Ok (render (List.filter (enabled lg) calls))
  | Raise e =>
      if isinstance_Exception (exc_class e)
      then fst run = Ok (render (List.filter (enabled lg) (calls ++ [exception_record e])))
      else fst run = Raise e
  end.
Proof.
  intros Hs. cbv zeta.
  pose proof (extract_setup_inv _ _ _ _ _ _ _ _ _ Hs)
    as (rel & content & _ & _ & _ & _ & _ & _ & Hlg).
  rewrite <- Hlg. exact (run_extractImage_render _ _ _ _ _ _ _ _ _ Hs).
Qed.

Lemma extractImage_log_text_witness :
  fst (@run_extractImage Edge.imports_chatty Sample.cache_path (Path "binaries") 0
         "/usr/lib/libA.dylib" INFO Sample.fs0)
  = Ok (String.concat nl ["odd page"; "done"; ""]).
Proof.
  pose proof (@extractImage_log_text Edge.imports_chatty
                Sample.cache_path (Path "binaries") 0 "/usr/lib/libA.dylib" INFO
                Sample.fs0 (mkWState Sample.fs0 "" []) Sample.out_A (Sample.ctx_A INFO)) as Hx.
  lapply Hx; [clear Hx; intros Hx|vm_compute; reflexivity].
  cbv zeta in Hx.
  destruct (fst (@try_body Edge.imports_chatty (logger (Sample.ctx_A INFO)) Sample.out_A
                   (Sample.ctx_A INFO) (mkWState Sample.fs0 "" []))) eqn:Htry;
    [|vm_compute in Htry; discriminate].
  rewrite Hx. vm_compute. reflexivity.
Defined.

(** X5. At the level 100, which [_main] picks for verbosity 0, a worker
    that returns returns the empty text, as long as no converter logs at
    level 100 or above: neither the converters' records nor a caught
    exception leave a trace. *)
Theorem extractImage_silent_at_level_100 `{Imports}
    (dyldPath outputDir : PurePath) (imageIndex : Z) (imagePath : string)
    (fs : os.FS) (s0 : WState) (outputPath : PurePath) (ctx : ExtractionContext)
    (blob : string) :
  extract_setup dyldPath outputDir imageIndex imagePath 100 (mkWState fs "" [])
    = (Ok (outputPath, ctx), s0) ->
  Forall (fun r => (levelno r < 100)%Z) (p_log (run_converters converters ctx)) ->
  fst (run_extractImage dyldPath outputDir imageIndex imagePath 100 fs) = Ok blob ->
  loggingLevel_of 0 = Some 100%Z
  /\ blob = ""
  /\ job_prints imagePath blob = [("Processed: " ++ split_last imagePath)%string].
Proof.
  intros Hs Hlow Hb. split; [done|].
  assert (blob = "") as ->; [|done].
  pose proof (run_extractImage_render _ _ _ _ _ _ _ _ _ Hs) as Hx. cbv zeta in Hx.
  pose proof (extract_setup_inv _ _ _ _ _ _ _ _ _ Hs)
    as (rel & content & _ & _ & _ & _ & _ & _ & Hlg).
  assert (forall extra, Forall (fun r => (levelno r < 100)%Z) extra ->
            render (List.filter (enabled (mkLogger ("Worker: " ++ str_path outputPath) 100))
                                extra) = "") as Hnone.
  { intros extra Hex. induction Hex as [|r rs Hr _ IH]; [done|].
    cbn [List.filter]. unfold enabled at 1, isEnabledFor, getEffectiveLevel. simpl.
    destruct (100 <=? levelno r)%Z eqn:Hle; [lia|]. exact IH. }
  rewrite <- Hlg in Hnone.
  destruct (fst (try_body (logger ctx) outputPath ctx s0)) as [[]|e].
  - rewrite Hx in Hb. injection Hb as <-. by apply Hnone.
  - destruct (isinstance_Exception (exc_class e)).
    + rewrite Hx in Hb. injection Hb as <-. apply Hnone.
      apply Forall_app. split; [done|]. constructor; [|done].
      unfold exception_record, ERROR. simpl. lia.
    + rewrite Hx in Hb. done.
Qed.

Lemma extractImage_silent_at_level_100_witness :
  job_prints "/usr/lib/libA.dylib" "" = ["Processed: libA.dylib"].
Proof.
  destruct (@extractImage_silent_at_level_100 Sample.imports_failing
              Sample.cache_path (Path "binaries") 0 "/usr/lib/libA.dylib"
              Sample.fs0 (mkWState Sample.fs0 "" []) Sample.out_A (Sample.ctx_A 100) "")
    as (_ & _ & Hp).
  - vm_compute. reflexivity.
  - vm_compute. repeat constructor.
  - vm_compute. reflexivity.
  - exact Hp.
Defined.

(** X6. At a level of at most [ERROR] (verbosity 1 to 3) a worker whose
    [try] block raised an [Exception], in a converter or while the file was
    written, returns a text that is not empty, so the coordinator prints a
    summary block for that image and keeps it for the final summary. *)
Theorem extractImage_failure_is_reported `{Imports}
    (dyldPath outputDir : PurePath) (imageIndex : Z) (imagePath : string)
    (loggingLevel : Z) (fs : os.FS) (s0 : WState)
    (outputPath : PurePath) (ctx : ExtractionContext) (e : PyExc) :
  extract_setup dyldPath outputDir imageIndex imagePath loggingLevel (mkWState fs "" [])
    = (Ok (outputPath, ctx), s0) ->
  fst (try_body (logger ctx) outputPath ctx s0) = Raise e ->
  isinstance_Exception (exc_class e) = true ->
  (loggingLevel <= ERROR)%Z ->
  exists blob,
    fst (run_extractImage dyldPath outputDir imageIndex imagePath loggingLevel fs) = Ok blob
    /\ blob <> ""
    /\ job_summary imagePath blob = [summary_of (split_last imagePath) blob]
    /\ job_prints imagePath blob
       = [("Processed: " ++ split_last imagePath)%string;
          summary_of (split_last imagePath) blob].
Proof.
  intros Hs Htry Hexc Hlvl.
  pose proof (extract_setup_inv _ _ _ _ _ _ _ _ _ Hs)
    as (rel & content & _ & _ & _ & _ & _ & _ & Hlg).
  unfold run_extractImage. rewrite (extractImage_run _ _ _ _ _ _ _ _ _ Hs).
  rewrite Htry. unfold after_try. rewrite Hexc. cbn [fst].
  eexists. split; [reflexivity|].
  assert (handle (logger ctx) (w_stream (snd (try_body (logger ctx) outputPath ctx s0)))
                 (exception_record e) <> "") as Hne.
  { unfold handle, isEnabledFor, getEffectiveLevel, emit. rewrite Hlg. simpl.
    unfold ERROR, NOTSET, WARNING in *.
    destruct (loggingLevel =? 0)%Z; simpl.
    - intros Heq. by do 2 apply str_app_nil_inv in Heq.
    - destruct (loggingLevel <=? 40)%Z eqn:Hle; [|lia].
      intros Heq. by do 2 apply str_app_nil_inv in Heq. }
  split; [exact Hne|].
  unfold job_summary, job_prints.
  apply String.eqb_neq in Hne. by rewrite Hne.
Qed.

Lemma extractImage_failure_is_reported_witness :
  exists blob,
    fst (@run_extractImage Sample.imports_failing Sample.cache_path (Path "binaries") 0
           "/usr/lib/libA.dylib" WARNING Sample.fs0) = Ok blob
    /\ blob <> "".
Proof.
  destruct (@extractImage_failure_is_reported Sample.imports_failing
              Sample.cache_path (Path "binaries") 0 "/usr/lib/libA.dylib" WARNING
              Sample.fs0 (mkWState Sample.fs0 "" []) Sample.out_A (Sample.ctx_A WARNING)
              Sample.e_fail)
    as (blob & Hb & Hne & _).
  - vm_compute. reflexivity.
  - vm_compute. reflexivity.
  - reflexivity.
  - vm_compute. discriminate.
  - exists blob. split; [exact Hb|exact Hne].
Defined.

Section PathsMore.

Lemma splitroot_slash (rest : string) :
  exists r, splitroot (String "/" rest) = (r, lstrip_sep rest) /\ (r = "/" \/ r = "//").
Proof.
  unfold splitroot. change (is_slash "/") with true. cbv iota.
  change (lstrip_sep (String "/" rest)) with (lstrip_sep rest).
  destruct (Nat.eqb _ 2); eauto.
Qed.

Lemma split_sep_cons (s : string) : exists x xs, split_sep s = x :: xs.
Proof.
  induction s as [|c s (x & xs & IH)]; simpl; [eauto|].
  destruct (is_slash c); [eauto|]. rewrite IH. eauto.
Qed.

Lemma str_app_cons (c : ascii) (a b : string) :
  (String c a ++ b)%string = String c (a ++ b)%string.
Proof. reflexivity. Qed.

(** [s.split("/")] and ["/".join] undo each other. *)
Lemma split_sep_join (s : string) : String.concat "/" (split_sep s) = s.
Proof.
  induction s as [|c s IH]; [reflexivity|]. simpl.
  destruct (split_sep_cons s) as (x & xs & Hs). rewrite Hs in IH |- *.
  destruct (is_slash c) eqn:Hc.
  - apply Ascii.eqb_eq in Hc. subst c.
    change (String.concat "/" ("" :: x :: xs))
      with ("" ++ "/" ++ String.concat "/" (x :: xs))%string.
    rewrite IH. reflexivity.
  - destruct xs as [|y ys].
    + simpl in IH |- *. by rewrite IH.
    + change (String.concat "/" (String c x :: y :: ys))
        with (String c x ++ "/" ++ String.concat "/" (y :: ys))%string.
      change (String.concat "/" (x :: y :: ys))
        with (x ++ "/" ++ String.concat "/" (y :: ys))%string in IH.
      rewrite str_app_cons. by rewrite IH.
Qed.

Lemma split_sep_no_slash (s : string) : Forall (fun x => no_slash x = true) (split_sep s).
Proof.
  induction s as [|c s IH]; simpl; [by constructor|].
  destruct (is_slash c) eqn:Hc; [by constructor|].
  destruct (split_sep s) as [|x xs]; [by constructor; [simpl; rewrite Hc|]|].
  apply Forall_cons in IH as [Hx Hxs]. constructor; [|done].
  simpl. by rewrite Hc.
Qed.

Lemma last_Forall {A} (P : A -> Prop) (l : list A) (d : A) :
  Forall P l -> l <> [] -> P (List.last l d).
Proof.
  induction 1 as [|x l Hx Hl IH]; [done|]. intros _.
  destruct l as [|y l]; [done|]. by apply IH.
Qed.

(** An image path is what precedes its last slash, with that slash, and then
    its name. *)
Lemma split_last_suffix (s : string) :
  exists dir,
    s = (dir ++ split_last s)%string /\
    ((dir = "" /\ exists x, split_sep s = [x]) \/
     (exists d, dir = (d ++ "/")%string) /\ exists x y ys, split_sep s = x :: y :: ys).
Proof.
  unfold split_last. induction s as [|c s (dir & Hs & Hdir)].
  - exists "". split; [reflexivity|]. left. split; [done|]. by exists "".
  - cbn [split_sep]. destruct (is_slash c) eqn:Hc.
    + apply Ascii.eqb_eq in Hc. subst c.
      destruct (split_sep_cons s) as (x & xs & Hx). rewrite Hx in *.
      exists (String "/" dir). split.
      * rewrite str_app_cons. f_equal. exact Hs.
      * right. split; [|by eauto].
        destruct Hdir as [[-> _]|[[d ->] _]]; [by exists ""|].
        exists (String "/" d). reflexivity.
    + destruct Hdir as [[-> [x Hx]]|[[d ->] (x & y & ys & Hx)]]; rewrite Hx in *.
      * exists "". split; [|left; split; [done|by eauto]].
        simpl in Hs |- *. by rewrite Hs at 1.
      * exists (String c (d ++ "/")). split.
        -- rewrite str_app_cons. f_equal. exact Hs.
        -- right. split; [by exists (String c d)|by eauto].
Qed.

End PathsMore.

(** X7. Only one leading slash is dropped.  For an image path that starts
    with two slashes the rest still starts with a slash, and joining makes
    it the whole output path: the path is rooted, it is the same for every
    output directory, and so does not lie under [outputDir]. *)
Theorem extractImage_double_slash_leaves_outputDir `{Imports}
    (dyldPath outputDir : PurePath) (imageIndex : Z) (rest : string)
    (loggingLevel : Z) (fs : os.FS) (s0 : WState)
    (outputPath : PurePath) (ctx : ExtractionContext) :
  extract_setup dyldPath outputDir imageIndex (String "/" (String "/" rest)) loggingLevel
                (mkWState fs "" [])
    = (Ok (outputPath, ctx), s0) ->
  relative_imagePath (String "/" (String "/" rest)) = Ok (String "/" rest)
  /\ outputPath = Path (String "/" rest)
  /\ (root outputPath = "/" \/ root outputPath = "//")
  /\ forall outputDir', outputDir' // String "/" rest = outputPath.
Proof.
  intros Hs.
  pose proof (extract_setup_inv _ _ _ _ _ _ _ _ _ Hs)
    as (rel & content & Hrel & Hout & _).
  change (relative_imagePath (String "/" (String "/" rest))) with (Ok (String "/" rest))
    in Hrel.
  injection Hrel as <-.
  assert (forall d, d // String "/" rest = Path (String "/" rest)
                    /\ (root (Path (String "/" rest)) = "/"
                        \/ root (Path (String "/" rest)) = "//")) as Hjoin.
  { intros d. unfold truediv, Path, parse_parts.
    destruct (splitroot_slash rest) as (r & -> & [-> | ->]); simpl; auto. }
  split; [done|]. rewrite Hout.
  destruct (Hjoin outputDir) as [-> Hroot].
  split; [done|]. split; [done|].
  intros d. by destruct (Hjoin d) as [-> _].
Qed.

Lemma extractImage_double_slash_leaves_outputDir_witness :
  Path "binaries" // "/usr/lib/libA.dylib" = Path "/usr/lib/libA.dylib"
  /\ root (Path "/usr/lib/libA.dylib") = "/".
Proof.
  assert (exists ctx,
            @extract_setup Sample.imports Sample.cache_path (Path "binaries") 0
              "//usr/lib/libA.dylib" WARNING (mkWState Sample.fs0 "" [])
            = (Ok (Path "/usr/lib/libA.dylib", ctx), mkWState Sample.fs0 "" []))
    as [ctx Hs].
  { eexists. vm_compute. reflexivity. }
  destruct (@extractImage_double_slash_leaves_outputDir Sample.imports _ _ _ _ _ _ _ _ _ Hs)
    as (_ & _ & _ & Hall).
  split; [exact (Hall (Path "binaries"))|reflexivity].
Defined.

Lemma no_slash_app_slash (d x : string) : no_slash ((d ++ "/") ++ x)%string = false.
Proof.
  induction d as [|c d IH]; [reflexivity|].
  rewrite !str_app_cons. cbn [no_slash]. rewrite IH. apply andb_false_r.
Qed.

(** X8. The name the coordinator prints for an image, [imagePath.split("/")[-1]],
    holds no slash and ends the image path: the path is the name alone, or
    something ending in a slash followed by the name (so a path ending in a
    slash has the empty name).  A path without a slash is its own name, and
    joining the pieces of the split with slashes gives the path back. *)
Theorem imageName_is_last_component (imagePath : string) :
  let imageName := split_last imagePath in
  no_slash imageName = true
  /\ (exists dir, imagePath = (dir ++ imageName)%string /\
                  (dir = "" \/ exists d, dir = (d ++ "/")%string))
  /\ (no_slash imagePath = true -> imageName = imagePath)
  /\ String.concat "/" (split_sep imagePath) = imagePath.
Proof.
  cbv zeta. split.
  { unfold split_last. apply last_Forall; [apply split_sep_no_slash|].
    by destruct (split_sep_cons imagePath) as (x & xs & ->). }
  destruct (split_last_suffix imagePath) as (dir & Hs & Hdir).
  split.
  { exists dir. split; [done|]. destruct Hdir as [[-> _]|[Hd _]]; auto. }
  split; [|apply split_sep_join].
  intros Hno. destruct Hdir as [[-> _]|[[d ->] _]]; [done|].
  rewrite Hs in Hno. by rewrite no_slash_app_slash in Hno.
Qed.

Section WorkerTree.
Context `{Imports}.

Lemma WriteOutcome_tree (outputPath : PurePath) (ctx : ExtractionContext)
    (fs fs' : os.FS) (r : Result unit) (evs : list Event) :
  WriteOutcome outputPath ctx fs r fs' evs ->
  (os.tree_ok fs -> os.tree_ok fs') /\
  (forall q, os.is_dir fs q = true -> os.is_dir fs' q = true) /\
  (forall q n, fs !! q = Some n -> exists n', fs' !! q = Some n').
Proof.
  intros Hwo.
  assert (forall fs1, os.Path_mkdir (parent outputPath) fs = Ok fs1 ->
            (os.tree_ok fs -> os.tree_ok fs1) /\
            (forall q, os.is_dir fs q = true -> os.is_dir fs1 q = true) /\
            (forall q n, fs !! q = Some n -> fs1 !! q = Some n)) as Hmk.
  { intros fs1 [_ Hkeep _ Htree]%Path_mkdir_effect. split; [done|]. split; [|done].
    intros q. unfold os.is_dir, os.stat. destruct (parts q); [done|].
    destruct (fs !! q) as [[]|] eqn:Hq; try done. by rewrite (Hkeep _ _ Hq). }
  assert (forall fs1 c, os.Path_mkdir (parent outputPath) fs = Ok fs1 ->
            os.open_wb outputPath fs1 = Ok (<[outputPath := os.File []]> fs1) ->
            (os.tree_ok fs -> os.tree_ok (<[outputPath := os.File c]> fs1)) /\
            (forall q, os.is_dir fs q = true ->
                       os.is_dir (<[outputPath := os.File c]> fs1) q = true) /\
            (forall q n, fs !! q = Some n ->
                         exists n', <[outputPath := os.File c]> fs1 !! q = Some n')) as Hop.
  { intros fs1 c Hm (Hpar & Hnd & _)%open_wb_inv.
    destruct (Hmk fs1 Hm) as (Ht & Hd & Hk). split; [|split].
    - intros Hok. apply tree_ok_insert_file; auto.
    - intros q Hq. specialize (Hd q Hq). unfold os.is_dir, os.stat in Hd |- *.
      destruct (parts q); [done|].
      destruct (decide (q = outputPath)) as [->|Hne].
      + destruct (fs1 !! outputPath) as [[]|]; done.
      + by rewrite lookup_insert_ne.
    - intros q n Hq. destruct (decide (q = outputPath)) as [->|Hne].
      + rewrite lookup_insert_eq. eauto.
      + rewrite lookup_insert_ne by done. eauto. }
  inversion Hwo; subst.
  - split; [done|]. split; [done|]. eauto.
  - destruct (Hmk fs') as (Ht & Hd & Hk); [done|]. split; [done|]. split; [done|]. eauto.
  - by apply Hop.
  - by apply Hop.
Qed.

End WorkerTree.

(** X9. A worker never deletes anything and keeps the file tree a tree.
    Every path that named something before the run names something after
    it, every directory is still a directory (the output file is not
    opened over a directory), and when every entry lay in a directory
    before the run, every entry does after it. *)
Theorem extractImage_keeps_tree `{Imports}
    (dyldPath outputDir : PurePath) (imageIndex : Z) (imagePath : string)
    (loggingLevel : Z) (fs : os.FS) (s0 : WState)
    (outputPath : PurePath) (ctx : ExtractionContext) :
  extract_setup dyldPath outputDir imageIndex imagePath loggingLevel (mkWState fs "" [])
    = (Ok (outputPath, ctx), s0) ->
  let fs' := w_fs (snd (run_extractImage dyldPath outputDir imageIndex imagePath
                                         loggingLevel fs)) in
  (os.tree_ok fs -> os.tree_ok fs')
  /\ (forall q, os.is_dir fs q = true -> os.is_dir fs' q = true)
  /\ (forall q n, fs !! q = Some n -> exists n', fs' !! q = Some n')
  /\ (forall q n, q <> outputPath -> fs !! q = Some n -> fs' !! q = Some n).
Proof.
  intros Hs. cbv zeta.
  split; [|split; [|split]]; [| | |intros q n Hne Hq; by eapply run_extractImage_keeps].
  all: pose proof (run_extractImage_cases _ _ _ _ _ _ _ _ _ Hs) as Hrun;
    cbv zeta in Hrun;
    destruct (p_out (run_converters converters ctx)) as [ctx5|e];
    [destruct Hrun as (wr & fs' & evs & Hwo & ->)|rewrite Hrun];
    match goal with |- context [after_try ?lg ?r ?s] =>
      destruct (after_try_state lg r s) as [-> _] end;
    cbn [w_fs]; eauto;
    by apply (WriteOutcome_tree _ _ _ _ _ _ Hwo).
Qed.

Lemma extractImage_keeps_tree_witness :
  os.is_dir (w_fs (snd (@run_extractImage Sample.imports Sample.cache_path (Path "binaries") 0
                          "/usr/lib/libA.dylib" WARNING Edge.made_dirs)))
            (Path "binaries/usr") = true.
Proof.
  destruct (@extractImage_keeps_tree Sample.imports
              Sample.cache_path (Path "binaries") 0 "/usr/lib/libA.dylib" WARNING
              Edge.made_dirs (mkWState Edge.made_dirs "" []) Sample.out_A
              (Sample.ctx_A WARNING)) as (_ & Hd & _).
  - assert (os.open_rb Sample.cache_path Edge.made_dirs = Ok Sample.cache_bytes) as Ho
      by (vm_compute; reflexivity).
    unfold extract_setup, bind, lift, modify, ret. cbn [w_fs w_trace fst snd].
    rewrite Ho. vm_compute. reflexivity.
  - apply Hd. vm_compute. reflexivity.
Defined.

(** X10. A worker given an index past the image directory of the cache it
    maps raises [IndexError] at [dyldCtx.images[imageIndex]], before the
    [try] statement: the exception leaves [_extractImage], nothing is
    logged, called or written. *)
Theorem extractImage_index_out_of_range `{Imports}
    (dyldPath outputDir : PurePath) (imageIndex : Z) (imagePath rel : string)
    (loggingLevel : Z) (fs : os.FS) (content : bytes)
    (imgs : list dyld_cache_image_info) :
  relative_imagePath imagePath = Ok rel ->
  os.open_rb dyldPath fs = Ok content ->
  content <> [] ->
  DyldContext_parse content = Ok imgs ->
  (Z.of_nat (List.length imgs) <= imageIndex)%Z ->
  run_extractImage dyldPath outputDir imageIndex imagePath loggingLevel fs
  = (Raise (mkExc IndexError "list index out of range"), mkWState fs "" []).
Proof.
  intros Hrel Hopen Hne Hparse Hidx.
  unfold run_extractImage, _extractImage, extract_setup, bind, lift, modify.
  cbn [w_fs w_stream w_trace]. rewrite Hrel. cbn [w_fs w_stream w_trace].
  rewrite Hopen. unfold mmap.mmap, new_DyldContext.
  destruct content as [|b content]; [done|]. cbn [mmap.data]. rewrite Hparse.
  cbn [images]. unfold list_getitem.
  destruct (imageIndex <? 0)%Z eqn:Hneg; [lia|].
  rewrite Hneg.
  destruct (List.nth_error imgs (Z.to_nat imageIndex)) eqn:Hnth; [|done].
  assert (List.nth_error imgs (Z.to_nat imageIndex) <> None) as Hsome by congruence.
  apply List.nth_error_Some in Hsome. lia.
Qed.

Lemma extractImage_index_out_of_range_witness :
  fst (@run_extractImage Sample.imports Sample.cache_path (Path "binaries") 2
         "/usr/lib/libA.dylib" WARNING Sample.fs0)
  = Raise (mkExc IndexError "list index out of range").
Proof.
  rewrite (@extractImage_index_out_of_range Sample.imports Sample.cache_path
             (Path "binaries") 2 "/usr/lib/libA.dylib" "usr/lib/libA.dylib" WARNING
             Sample.fs0 Sample.cache_bytes [mkImage 0 0; mkImage 16 1]).
  - reflexivity.
  - reflexivity.
  - vm_compute. reflexivity.
  - discriminate.
  - reflexivity.
  - vm_compute. discriminate.
Defined.

(** ** More on the coordinator *)

Section CoordinatorMore.
Context `{Imports}.

Lemma read_imagePaths_any (dctx : DyldContext) (imgs : list dyld_cache_image_info)
    (i : nat) (s s' : CState) (r : Result (list string)) :
  read_imagePaths dctx imgs i s = (r, s') ->
  exists evs, s' = c_after s evs /\ Forall is_CRead evs.
Proof.
  revert i s s' r. induction imgs as [|image imgs IH]; intros i s s' r.
  - simpl. unfold ret. intros [= <- <-]. exists []. split; [|done].
    unfold c_after. destruct s; simpl. by rewrite app_nil_r.
  - simpl. unfold bind, c_event, modify, lift. simpl.
    assert (mkCState (c_fs s) (c_clock s) (c_stdout s) (c_jobOutputs s) (c_jobsComplete s)
                     (c_progress s) (c_trace s ++ [CRead i]) = c_after s [CRead i]) as Hst
      by done.
    rewrite Hst.
    destruct (readString dctx (pathFileOffset image)) as [raw|].
    2:{ intros [= <- <-]. exists [CRead i]. split; [done|]. by constructor. }
    destruct (decode_utf8 (str_drop_last raw)) as [p|].
    2:{ intros [= <- <-]. exists [CRead i]. split; [done|]. by constructor. }
    destruct (read_imagePaths dctx imgs (S i) (c_after s [CRead i])) as [r1 s1] eqn:Hrec.
    apply IH in Hrec as (evs & -> & Hevs).
    assert (c_after (c_after s [CRead i]) evs = c_after s (CRead i :: evs)) as ->.
    { unfold c_after. simpl. by rewrite <- app_assoc. }
    unfold ret. intros Heq. exists (CRead i :: evs). split.
    + by destruct r1; injection Heq as <- <-.
    + by constructor.
Qed.

Lemma submit_jobs_unbound (sch : Schedule) (dyldPath outputDir : PurePath) (i : nat)
    (p : string) (ps : list string) (s : CState) :
  submit_jobs sch dyldPath outputDir None i (p :: ps) s
  = (Raise (mkExc UnboundLocalError "loggingLevel"), s).
Proof. reflexivity. Qed.

End CoordinatorMore.

(** X11. [_main] submits a job for every image or for none.  When it
    raises before the loop (the output directory cannot be made, the cache
    cannot be read or parsed, a path cannot be read or decoded, the level is
    unbound), no job has been submitted or completed and nothing has been
    printed; the pool exists at that point only if the verbosity was none
    of 0 to 3. *)
Theorem main_raises_before_any_job `{Imports}
    (sch : Schedule) (proc : Process) (args : _DyldExtractorArgs) (fs : os.FS)
    (e : PyExc) (s : CState) :
  main_submit sch proc args (c_init fs) = (Raise e, s) ->
  (forall fuel, _main sch fuel proc args fs = Some (Raise e, s))
  /\ Forall (fun ev => ~ is_CSubmit ev /\ ~ is_CComplete ev) (c_trace s)
  /\ c_stdout s = []
  /\ ((exists pool, In (CPool pool) (c_trace s)) ->
      loggingLevel_of (verbosity args) = None).
Proof.
  intros Hsub. split.
  { intros fuel. unfold _main. change (mkCState fs 0 [] [] 0 [] []) with (c_init fs).
    by rewrite Hsub. }
  revert Hsub. unfold main_submit, bind at 1, c_on_fs.
  cbn [c_init c_fs].
  destruct (os.Path_mkdir (outputDir_of args) fs) as [fs1|e0].
  2:{ intros [= <- <-]. simpl. split; [done|]. split; [done|]. by intros [pool []]. }
  unfold bind at 1. cbn [c_fs].
  destruct (os.open_rb (dyld_path args) fs1) as [content|e0].
  2:{ intros [= <- <-]. simpl. split; [done|]. split; [done|]. by intros [pool []]. }
  unfold bind at 1, lift at 1.
  destruct (mmap.mmap (dyld_path args) content mmap.ACCESS_READ) as [dyldFile|e0].
  2:{ intros [= <- <-]. simpl. split; [done|]. split; [done|]. by intros [pool []]. }
  unfold bind at 1, lift at 1.
  destruct (new_DyldContext dyldFile) as [dctx|e0].
  2:{ intros [= <- <-]. simpl. split; [done|]. split; [done|]. by intros [pool []]. }
  unfold bind at 1.
  destruct (read_imagePaths dctx (images dctx) 0 _) as [[paths|e0] s1] eqn:Hread;
    apply read_imagePaths_any in Hread as (evs & -> & Hevs).
  2:{ intros [= <- <-]. cbn [c_after c_trace c_stdout app].
      split; [|split; [done|]].
      - eapply Forall_impl; [exact Hevs|]. intros ev Hr. destruct ev; try done. split; intros [].
      - intros [pool Hin]. rewrite List.Forall_forall in Hevs.
        by apply Hevs in Hin. }
  unfold bind at 1, c_event at 1, modify at 1. cbn [c_after c_fs c_clock c_stdout
    c_jobOutputs c_jobsComplete c_progress c_trace app].
  destruct (loggingLevel_of (verbosity args)) as [level|] eqn:Hlevel.
  { rewrite submit_jobs_run. done. }
  destruct paths as [|p ps].
  { simpl. done. }
  rewrite submit_jobs_unbound. intros [= <- <-]. cbn [c_trace c_stdout].
  split; [|split; [done|done]].
  apply Forall_app. split; [|by repeat constructor; intros []].
  eapply Forall_impl; [exact Hevs|]. intros ev Hr. destruct ev; try done. split; intros [].
Qed.

Lemma main_raises_before_any_job_witness :
  @_main Sample.imports Sample.at_once 0 python_process
     (mkArgs (Path "missing") None 1) Sample.fs0
  = Some (Raise (mkExc FileNotFoundError "missing"),
          snd (@main_submit Sample.imports Sample.at_once python_process
                 (mkArgs (Path "missing") None 1) (c_init Sample.fs0))).
Proof.
  destruct (@main_raises_before_any_job Sample.imports Sample.at_once python_process
              (mkArgs (Path "missing") None 1) Sample.fs0
              (mkExc FileNotFoundError "missing")
              (snd (@main_submit Sample.imports Sample.at_once python_process
                      (mkArgs (Path "missing") None 1) (c_init Sample.fs0))))
    as [Hmain _].
  - etrans; [apply surjective_pairing|]. by f_equal.
  - exact (Hmain 0).
Defined.

(** X12. [_main] makes the output directory before it looks at the cache:
    when the cache file is missing, is a directory, or is empty (an empty
    file cannot be mapped), [_main] raises that error with the output
    directory already made, and has created no pool and read no path. *)
Theorem main_cache_unreadable `{Imports}
    (sch : Schedule) (proc : Process) (args : _DyldExtractorArgs) (fs fs1 : os.FS)
    (e : PyExc) :
  os.Path_mkdir (outputDir_of args) fs = Ok fs1 ->
  (os.open_rb (dyld_path args) fs1 = Raise e \/
   (os.open_rb (dyld_path args) fs1 = Ok [] /\
    e = mkExc ValueError "cannot mmap an empty file")) ->
  (forall fuel, _main sch fuel proc args fs = Some (Raise e, c_init fs1))
  /\ os.is_dir fs1 (outputDir_of args) = true
  /\ (forall q n, fs !! q = Some n -> fs1 !! q = Some n).
Proof.
  intros Hmk Hopen.
  destruct (Path_mkdir_effect _ _ _ Hmk) as [Hd Hk _ _].
  split; [|done].
  intros fuel. unfold _main, main_submit, bind, c_on_fs, lift. cbn [c_fs].
  rewrite Hmk. cbn [c_fs].
  destruct Hopen as [-> | [-> ->]]; reflexivity.
Qed.

Lemma main_cache_unreadable_witness :
  exists fs1,
    @_main Sample.imports Sample.at_once 0 python_process
       (mkArgs (Path "missing") None 1) Sample.fs0
    = Some (Raise (mkExc FileNotFoundError "missing"), c_init fs1)
    /\ os.is_dir fs1 (Path "binaries") = true.
Proof.
  eexists. 
  destruct (@main_cache_unreadable Sample.imports Sample.at_once python_process
              (mkArgs (Path "missing") None 1) Sample.fs0
              (match os.Path_mkdir (Path "binaries") Sample.fs0 with
               | Ok f => f | Raise _ => Sample.fs0 end)
              (mkExc FileNotFoundError "missing")) as (Hmain & Hd & _).
  - apply Ok_unwrap. vm_compute. reflexivity.
  - left. vm_compute. reflexivity.
  - split; [exact (Hmain 0)|exact Hd].
Defined.



Section CoordinatorLoop.
Context `{Imports}.




Lemma complete_job_counted (imagePath : string) (job : AsyncResult) (out : string)
    (s : CState) :
  ar_value job = Ok out -> Counted s -> Counted (snd (complete_job imagePath job s)).
Proof.
  intros Hv Hc. destruct s as [fs t so jo jc pr tr].
  unfold complete_job, bind, get, c_event, print, AsyncResult_get, lift, modify,
    progressBar_update, ret. simpl. rewrite Hv.
  unfold Counted in *. simpl in *.
  destruct (String.eqb out ""); simpl; rewrite Hc; symmetry; exact (seq_S jc 1).
Qed.

Lemma sweep_counted (jobs : list (string * AsyncResult)) (s : CState) :
  Forall job_ok jobs -> Counted s -> Counted (snd (sweep jobs s)).
Proof.
  revert s. induction jobs as [|[p job] higher IH]; intros s Hok Hc; [done|].
  apply Forall_cons in Hok as [Hjob Hhigher].
  specialize (IH s Hhigher Hc).
  destruct (sweep_ok higher s Hhigher) as (rest1 & s1 & done1 & Hsw & _).
  simpl. unfold bind at 1. rewrite Hsw in IH |- *. simpl in IH.
  unfold bind at 1, ready at 1.
  set (s1' := mkCState (c_fs s1) (S (c_clock s1)) (c_stdout s1) (c_jobOutputs s1)
                       (c_jobsComplete s1) (c_progress s1) (c_trace s1)).
  assert (Counted s1') as Hc1 by exact IH.
  destruct (Nat.leb (ar_done_at job) (c_clock s1)); [|done].
  unfold job_ok in Hjob. simpl in Hjob.
  destruct (ar_value job) as [out|] eqn:Hv; [|done].
  pose proof (complete_job_counted p job out s1' Hv Hc1) as Hc2.
  unfold bind. by destruct (complete_job p job s1') as [[[]|] s2].
Qed.

Lemma wait_all_counted (fuel : nat) (jobs : list (string * AsyncResult))
    (s s' : CState) (r : Result unit) :
  Forall job_ok jobs -> Counted s ->
  wait_all fuel jobs s = Some (r, s') -> Counted s'.
Proof.
  revert jobs s. induction fuel as [|fuel IH]; intros jobs s Hok Hc.
  - destruct jobs; [|done]. by intros [= <- <-].
  - destruct jobs as [|pj jobs]; [by intros [= <- <-]|].
    cbn [wait_all].
    pose proof (sweep_counted (pj :: jobs) s Hok Hc) as Hc1.
    destruct (sweep_ok (pj :: jobs) s Hok) as (rest & s1 & done1 & Hsw & _ & _ & Hperm & _).
    rewrite Hsw in Hc1 |- *. simpl in Hc1.
    apply IH; [|done].
    rewrite Hperm in Hok. by apply Forall_app in Hok as [_ ?].
Qed.





End CoordinatorLoop.



(** X15. When every worker returns, [jobsComplete] ends at the number of
    jobs, and the progress bar has been shown 1, 2, ... up to that number,
    one value per completion, and that number once more at the end. *)
Theorem main_counts_every_job `{Imports}
    (sch : Schedule) (proc : Process) (args : _DyldExtractorArgs) (fs : os.FS)
    (level : Z) (jobs : list (string * AsyncResult)) (s1 : CState) :
  loggingLevel_of (verbosity args) = Some level ->
  main_submit sch proc args (c_init fs) = (Ok jobs, s1) ->
  Forall job_ok jobs ->
  exists fuel0, forall fuel, fuel0 <= fuel ->
    exists s',
      _main sch fuel proc args fs = Some (Ok tt, s') /\
      c_jobsComplete s' = List.length jobs /\
      c_progress s' = List.seq 1 (List.length jobs) ++ [List.length jobs].
Proof.
  intros Hl Hs Hok.
  destruct (main_submit_inv _ _ _ _ _ _ _ Hl Hs)
    as (fs1 & content & imgs & paths & _ & _ & _ & _ & _ & Hs1).
  assert (Counted s1 /\ c_jobsComplete s1 = 0 /\ c_clock s1 = 0) as (Hc & Hjc & Hclk)
    by (by rewrite Hs1).
  exists (S (last_done_at jobs)). intros fuel Hfuel.
  destruct (wait_all_ok fuel (last_done_at jobs) jobs s1 Hok (last_done_at_bound jobs))
    as (s2 & done & Hw & [_ _ _ C _] & Hperm & _); [lia|].
  pose proof (wait_all_counted _ _ _ _ _ Hok Hc Hw) as Hc2.
  assert (c_jobsComplete s2 = List.length jobs) as Hn.
  { rewrite C, Hjc, <- (List.length_map cp_entry done). simpl.
    by rewrite <- Hperm. }
  unfold _main. change (mkCState fs 0 [] [] 0 [] []) with (c_init fs).
  rewrite Hs, Hw. eexists. split; [reflexivity|].
  unfold main_report, bind, get, progressBar_update, print, modify. simpl.
  unfold Counted in Hc2. by rewrite Hc2, Hn.
Qed.

Lemma main_counts_every_job_witness :
  exists fuel s',
    @_main Sample.imports Sample.at_once fuel python_process Sample.args0 Sample.fs0
      = Some (Ok tt, s') /\
    c_progress s' = [1; 2; 2].
Proof.
  destruct (@main_counts_every_job Sample.imports Sample.at_once
              python_process Sample.args0 Sample.fs0 WARNING
              (Sample.submitted_jobs Sample.imports)
              (snd (Sample.submitted Sample.imports)))
    as (fuel0 & Hrun).
  - reflexivity.
  - vm_compute. reflexivity.
  - vm_compute. repeat constructor.
  - destruct (Hrun fuel0 (le_n _)) as (s' & Hmain & _ & Hp).
    exists fuel0, s'. split; [exact Hmain|]. rewrite Hp. reflexivity.
Defined.



(** ** Workers one after the other *)

Section WorkerAgain.
Context `{Imports}.






End WorkerAgain.





(** ** Verbosity and level *)

(** X19. A higher verbosity never hides a record: for two verbosities that
    [_main] gives a level, whatever a worker's logger lets through at the
    lower one it lets through at the higher one (the chain of lines 174 to
    182 is decreasing in the level, and a logger passes the records at or
    above its level). *)
Theorem verbosity_never_hides (v v' lv lv' : Z) (nm nm' : string) (r : LogRecord) :
  (v <= v')%Z ->
  loggingLevel_of v = Some lv -> loggingLevel_of v' = Some lv' ->
  enabled (mkLogger nm lv) r = true -> enabled (mkLogger nm' lv') r = true.
Proof.
  intros Hle Hv Hv'.
  assert (lv' <= lv /\ lv' <> NOTSET /\ lv <> NOTSET)%Z as (Hlv & Hn' & Hn).
  { unfold loggingLevel_of in Hv, Hv'.
    repeat match type of Hv with
           | context [(?a =? ?b)%Z] => destruct (Z.eqb_spec a b)
           end;
    repeat match type of Hv' with
           | context [(?a =? ?b)%Z] => destruct (Z.eqb_spec a b)
           end;
    simplify_eq; unfold WARNING, INFO, DEBUG, NOTSET; lia. }
  unfold enabled, isEnabledFor, getEffectiveLevel. cbn [level].
  destruct (Z.eqb_spec lv NOTSET); [done|].
  destruct (Z.eqb_spec lv' NOTSET); [done|].
  intros Hen%Z.leb_le. apply Z.leb_le. lia.
Qed.

Lemma verbosity_never_hides_witness :
  enabled (mkLogger "Worker: a" INFO) (mkRecord WARNING "slow" None) = true.
Proof.
  apply (verbosity_never_hides 1 2 WARNING INFO "Worker: a" "Worker: a"
           (mkRecord WARNING "slow" None)).
  - lia.
  - reflexivity.
  - reflexivity.
  - reflexivity.
Defined.
